(** * raj-app service worker (sw.js): cache-first interception and cache generations

    A shallow embedding of the two variants of the service worker, the
    "enhanced" one (cache name [raj-app-v2]) and the earlier one (cache
    name [raj-app-v1]), together with the part of the browser they talk
    to: the CacheStorage, the network, the console and the worker's own
    life-cycle requests.

    Promise chains are run to completion in program order: a promise is a
    computation over the world that ends in a settled state, [.then] and
    [.catch] are the two binds on that state. *)

From Stdlib Require Import String Ascii ZArith List Bool Lia.
From stdpp Require Import gmap strings list fin_maps.
Import ListNotations.

Local Open Scope string_scope.
Local Open Scope Z_scope.
Local Open Scope list_scope.

(** ** Strings as the source uses them *)

(** [s.startsWith(p)] *)
Fixpoint startsWith (s p : string) {struct s} : bool :=
  match p with
  | EmptyString => true
  | String a p' =>
      match s with
      | EmptyString => false
      | String b s' => if Ascii.eqb a b then startsWith s' p' else false
      end
  end.

(** [s.includes(needle)] *)
Fixpoint includes (s needle : string) : bool :=
  startsWith s needle ||
  match s with
  | EmptyString => false
  | String _ s' => includes s' needle
  end.

(** ** URLs, requests, responses *)

(** The components [new URL(href)] exposes; [href] is their serialisation,
    so that [new URL(request.url)] is the record the request carries. *)
Record URL := mkURL {
  protocol : string;   (* with its colon, as in "https:" *)
  hostname : string;
  port : string;       (* empty for the default port *)
  pathname : string;
  search : string;
  hash : string
}.

Definition host (u : URL) : string :=
  if String.eqb (port u) "" then hostname u
  else String.append (hostname u) (String.append ":" (port u)).

Definition href (u : URL) : string :=
  String.append (protocol u)
    (String.append "//"
       (String.append (host u)
          (String.append (pathname u) (String.append (search u) (hash u))))).

Inductive RequestMode := SameOrigin | NoCors | Cors | Navigate | WebSocket.

Record Request := mkRequest {
  url : URL;
  mode : RequestMode
}.

Inductive ResponseType :=
  Basic | CorsType | Default | ErrorType | Opaque | OpaqueRedirect.

(** What a response says and carries, apart from the identity of its body
    stream. This is also what a cache keeps. *)
Record ResponseData := mkData {
  status : Z;
  statusText : string;
  type : ResponseType;
  body : string
}.

(** A response object: its data and the stream its body is read from. A
    stream is read once; [clone] gives the same bytes on a fresh stream. *)
Record Response := mkResponse {
  data : ResponseData;
  stream : nat
}.

#[global] Instance RequestMode_eq_dec : EqDecision RequestMode.
Proof. solve_decision. Defined.
#[global] Instance ResponseType_eq_dec : EqDecision ResponseType.
Proof. solve_decision. Defined.

(** ** The host: cache storage, network, console *)

Inductive Level := LLog | LWarn | LError.

Inductive JsError :=
  | FetchFailed        (* fetch() rejected: no connectivity *)
  | AddAllFailed       (* cache.addAll(): a request failed or was not accepted *)
  | BodyUsed.          (* clone() or put() of a response already read *)

(** What the worker does to the outside, in program order. *)
Inductive Effect :=
  | CacheMatch (key : string)              (* caches.match(key) *)
  | CacheOpen (name : string)              (* caches.open(name) *)
  | CachePut (name key : string)           (* cache.put(key, response) *)
  | CacheAddAll (name : string) (keys : list string)
  | CacheKeys                              (* caches.keys() *)
  | CacheDelete (name : string)            (* caches.delete(name) *)
  | NetFetch (key : string)                (* fetch(request) *)
  | SkipWaiting                            (* self.skipWaiting() *)
  | ClientsClaim                           (* self.clients.claim() *)
  | Console (lvl : Level) (msg : list string).

(** A cache maps the request URL to the stored response; the CacheStorage
    lists the named caches in creation order, which is the order
    [caches.match] searches and [caches.keys] enumerates them in. The
    storage itself does not fail: opening, reading, deleting and writing a
    readable response succeed. *)
Record World := mkWorld {
  storage : list (string * gmap string ResponseData);
  streams : list bool;   (* per body stream handed out: has it been read *)
  trace : list Effect    (* oldest first *)
}.

(** What the worker cannot change: its own origin ([self.location.origin])
    and the network, which answers a URL with a response or fails. *)
Record Env := mkEnv {
  origin : string;
  net : string -> option ResponseData
}.

Definition M (A : Type) : Type := Env -> World -> A * World.

Definition ret {A} (a : A) : M A := fun _ w => (a, w).
Definition bind {A B} (m : M A) (f : A -> M B) : M B :=
  fun e w => let (a, w') := m e w in f a e w'.

Declare Scope sw_scope.
Delimit Scope sw_scope with sw.
Notation "x <- m ;; k" := (bind m (fun x => k))
  (at level 100, m at next level, right associativity) : sw_scope.
Notation "m ;;; k" := (bind m (fun _ => k))
  (at level 100, right associativity) : sw_scope.
Local Open Scope sw_scope.

Definition ask : M Env := fun e w => (e, w).
Definition get : M World := fun _ w => (w, w).
Definition emit (x : Effect) : M unit :=
  fun _ w => (tt, mkWorld (storage w) (streams w) (trace w ++ [x])).
Definition set_storage (s : list (string * gmap string ResponseData)) : M unit :=
  fun _ w => (tt, mkWorld s (streams w) (trace w)).
Definition fresh_stream : M nat :=
  fun _ w => (length (streams w), mkWorld (storage w) (streams w ++ [false]) (trace w)).
Definition mark_used (i : nat) : M unit :=
  fun _ w => (tt, mkWorld (storage w) (<[ i := true ]> (streams w)) (trace w)).

(** A body can be read from a stream that was handed out and not read yet. *)
Definition readable (w : World) (i : nat) : bool :=
  match streams w !! i with
  | Some false => true
  | _ => false
  end.

Definition console (lvl : Level) (msg : list string) : M unit :=
  emit (Console lvl msg).

(** *** Promises *)

Inductive Settled (A : Type) :=
  | Fulfilled (a : A)
  | Rejected (e : JsError).
Arguments Fulfilled {A} a.
Arguments Rejected {A} e.

Definition Promise (A : Type) : Type := M (Settled A).

Definition resolve {A} (a : A) : Promise A := ret (Fulfilled a).
Definition reject {A} (e : JsError) : Promise A := ret (Rejected e).

(** [p.then(f)] *)
Definition then_ {A B} (p : Promise A) (f : A -> Promise B) : Promise B :=
  s <- p ;;
  match s with
  | Fulfilled a => f a
  | Rejected e => reject e
  end.

(** [p.catch(h)] *)
Definition catch_ {A} (p : Promise A) (h : JsError -> Promise A) : Promise A :=
  s <- p ;;
  match s with
  | Fulfilled a => resolve a
  | Rejected e => h e
  end.

(** [Promise.all(xs.map(f))] *)
Fixpoint all_map {A B} (f : A -> Promise B) (xs : list A) : Promise (list B) :=
  match xs with
  | [] => resolve []
  | x :: xs' =>
      s <- f x ;;
      r <- all_map f xs' ;;
      match s, r with
      | Fulfilled b, Fulfilled bs => resolve (b :: bs)
      | Rejected e, _ => reject e
      | _, Rejected e => reject e
      end
  end.

(** *** Cache storage *)

(** First cache of that name. *)
Fixpoint find_cache (name : string) (s : list (string * gmap string ResponseData))
  : option (gmap string ResponseData) :=
  match s with
  | [] => None
  | (n, c) :: s' => if String.eqb n name then Some c else find_cache name s'
  end.

(** First hit over all caches, in creation order. *)
Fixpoint match_all (key : string) (s : list (string * gmap string ResponseData))
  : option ResponseData :=
  match s with
  | [] => None
  | (_, c) :: s' =>
      match c !! key with
      | Some d => Some d
      | None => match_all key s'
      end
  end.

Fixpoint update_cache (name : string) (f : gmap string ResponseData -> gmap string ResponseData)
  (s : list (string * gmap string ResponseData)) : list (string * gmap string ResponseData) :=
  match s with
  | [] => []
  | (n, c) :: s' =>
      if String.eqb n name then (n, f c) :: s' else (n, c) :: update_cache name f s'
  end.

(** A string used where a request is expected is resolved against the
    worker's location: a path gets the origin in front, an absolute URL
    stays as it is. *)
Definition resolve_url (e : Env) (s : string) : string :=
  if startsWith s "/" then String.append (origin e) s else s.

(** [caches.match(key)]: the stored response on a fresh stream, or undefined. *)
Definition caches_match (key : string) : Promise (option Response) :=
  emit (CacheMatch key) ;;;
  w <- get ;;
  match match_all key (storage w) with
  | Some d => i <- fresh_stream ;; resolve (Some (mkResponse d i))
  | None => resolve None
  end.

(** [caches.match(url)] with a string for the request. *)
Definition caches_match_url (s : string) : Promise (option Response) :=
  e <- ask ;;
  caches_match (resolve_url e s).

(** [caches.open(name)]: creates the cache when there is none; the handle
    is the name. *)
Definition caches_open (name : string) : Promise string :=
  emit (CacheOpen name) ;;;
  w <- get ;;
  match find_cache name (storage w) with
  | Some _ => resolve name
  | None => set_storage (storage w ++ [(name, ∅)]) ;;; resolve name
  end.

(** [cache.put(key, response)]: reads the response body, which must not
    have been read before, and stores it under the key. *)
Definition cache_put (cache key : string) (r : Response) : Promise unit :=
  emit (CachePut cache key) ;;;
  w <- get ;;
  if negb (readable w (stream r)) then reject BodyUsed
  else
    mark_used (stream r) ;;;
    set_storage (update_cache cache (fun c => <[ key := data r ]> c) (storage w)) ;;;
    resolve tt.

(** [caches.keys()] *)
Definition caches_keys : Promise (list string) :=
  emit CacheKeys ;;;
  w <- get ;;
  resolve (map fst (storage w)).

(** [caches.delete(name)]: whether there was such a cache. *)
Definition caches_delete (name : string) : Promise bool :=
  emit (CacheDelete name) ;;;
  w <- get ;;
  match find_cache name (storage w) with
  | Some _ =>
      set_storage (List.filter (fun nc => negb (String.eqb (fst nc) name)) (storage w)) ;;;
      resolve true
  | None => resolve false
  end.

(** *** Network *)

(** [fetch(key)]: the network's answer on a fresh stream, or a rejection. *)
Definition fetch (key : string) : Promise Response :=
  emit (NetFetch key) ;;;
  e <- ask ;;
  match net e key with
  | Some d => i <- fresh_stream ;; resolve (mkResponse d i)
  | None => reject FetchFailed
  end.

(** [response.clone()]: throws when the body has been read. *)
Definition clone (r : Response) : Promise Response :=
  w <- get ;;
  if negb (readable w (stream r)) then reject BodyUsed
  else i <- fresh_stream ;; resolve (mkResponse (data r) i).

(** [new Response(body, {status, statusText})] *)
Definition new_Response (b : string) (st : Z) (txt : string) : M Response :=
  i <- fresh_stream ;; ret (mkResponse (mkData st txt Default b) i).

(** [response.ok] *)
Definition ok (d : ResponseData) : bool := (200 <=? status d) && (status d <=? 299).

(** The answers [cache.addAll] accepts: ok, and not a partial (206) one. *)
Definition addable (d : ResponseData) : bool := ok d && negb (status d =? 206).

(** [cache.addAll(urls)]: every URL is fetched; unless every answer is
    accepted nothing is stored. *)
Fixpoint fetch_all (keys : list string) : M (list (string * option ResponseData)) :=
  match keys with
  | [] => ret []
  | k :: ks =>
      emit (NetFetch k) ;;;
      e <- ask ;;
      rest <- fetch_all ks ;;
      ret ((k, net e k) :: rest)
  end.

Fixpoint all_ok (rs : list (string * option ResponseData)) : option (list (string * ResponseData)) :=
  match rs with
  | [] => Some []
  | (k, Some d) :: rs' =>
      if addable d then
        match all_ok rs' with
        | Some l => Some ((k, d) :: l)
        | None => None
        end
      else None
  | (_, None) :: _ => None
  end.

Definition put_all (l : list (string * ResponseData)) (c : gmap string ResponseData)
  : gmap string ResponseData :=
  fold_left (fun c kd => <[ fst kd := snd kd ]> c) l c.

Definition cache_addAll (cache : string) (urls : list string) : Promise unit :=
  e <- ask ;;
  let keys := map (resolve_url e) urls in
  emit (CacheAddAll cache keys) ;;;
  rs <- fetch_all keys ;;
  match all_ok rs with
  | Some l =>
      w <- get ;;
      set_storage (update_cache cache (put_all l) (storage w)) ;;;
      resolve tt
  | None => reject AddAllFailed
  end.

(** *** Life cycle *)

Definition skipWaiting : Promise unit := emit SkipWaiting ;;; resolve tt.
Definition clients_claim : Promise unit := emit ClientsClaim ;;; resolve tt.

(** What a fetch listener leaves the browser with: nothing
    ([respondWith] was not called, the browser handles the request itself)
    or the settled promise it passed to [event.respondWith]; [None] is
    JavaScript's undefined. *)
Inductive Action :=
  | Passthrough
  | RespondWith (s : Settled (option Response)).

(** The values an expression of the fallback may have. *)
Inductive JsValue :=
  | JsUndefined
  | JsResponse (r : Response)
  | JsPromise (s : Settled (option Response)).

(** Only undefined is falsy here; a promise is an object, hence truthy,
    whatever it settles to. *)
Definition truthy (v : JsValue) : bool :=
  match v with
  | JsUndefined => false
  | _ => true
  end.

(** [a || b]: [b] is evaluated only when [a] is falsy. *)
Definition js_or (a b : M JsValue) : M JsValue :=
  v <- a ;;
  if truthy v then ret v else b.

(** A handler's return value, as the promise resolved with it settles. *)
Definition settle (v : JsValue) : Settled (option Response) :=
  match v with
  | JsUndefined => Fulfilled None
  | JsResponse r => Fulfilled (Some r)
  | JsPromise s => s
  end.

(** The promise object a call returns, as a value. *)
Definition as_value (p : Promise (option Response)) : M JsValue :=
  s <- p ;; ret (JsPromise s).

(** How an error prints on the console. *)
Definition error_name (e : JsError) : string :=
  match e with
  | FetchFailed => "TypeError: Failed to fetch"
  | AddAllFailed => "TypeError: Failed to execute 'addAll' on 'Cache': Request failed"
  | BodyUsed => "TypeError: Response body is already used"
  end.

(** ** The enhanced worker (cache name raj-app-v2) *)

Module V2.

Definition CACHE_NAME : string := "raj-app-v2".
Definition BASE_PATH : string := "/raj-app".

Definition urlsToCache : list string :=
  [ String.append BASE_PATH "/";
    String.append BASE_PATH "/index.html";
    String.append BASE_PATH "/manifest.json";
    String.append BASE_PATH "/icons/icons-192x192.jpg";
    String.append BASE_PATH "/icons/icons-512x512.jpg";
    "https://www.gstatic.com/firebasejs/9.23.0/firebase-app-compat.js";
    "https://www.gstatic.com/firebasejs/9.23.0/firebase-auth-compat.js";
    "https://www.gstatic.com/firebasejs/9.23.0/firebase-firestore-compat.js" ].

(** The install listener; the result is the promise given to
    [event.waitUntil]. *)
Definition install_listener : Promise unit :=
  console LLog ["Service Worker: Installing v2..."] ;;;
  catch_
    (then_
       (then_ (caches_open CACHE_NAME)
          (fun cache =>
             console LLog ["Service Worker: Caching app shell and Firebase SDK"] ;;;
             cache_addAll cache urlsToCache))
       (fun _ =>
          console LLog ["Service Worker: Installation complete"] ;;;
          skipWaiting))
    (fun error =>
       console LError ["Service Worker: Cache failed"; error_name error] ;;;
       resolve tt).

(** The first activate listener. *)
Definition activate_listener : Promise unit :=
  console LLog ["Service Worker: Activating v2..."] ;;;
  then_
    (then_ caches_keys
       (fun cacheNames =>
          all_map
            (fun cacheName =>
               if negb (String.eqb cacheName CACHE_NAME) then
                 console LLog ["Service Worker: Deleting old cache"; cacheName] ;;;
                 then_ (caches_delete cacheName) (fun b => resolve (Some b))
               else resolve None)
            cacheNames))
    (fun _ =>
       console LLog ["Service Worker: Activation complete"] ;;;
       clients_claim).

(** The second activate listener, at the end of the script. *)
Definition cleanup_listener : Promise (list (option bool)) :=
  then_ caches_keys
    (fun cacheNames =>
       all_map
         (fun cacheName =>
            if startsWith cacheName "raj-app-" && negb (String.eqb cacheName CACHE_NAME) then
              console LLog ["Service Worker: Removing old cache:"; cacheName] ;;;
              then_ (caches_delete cacheName) (fun b => resolve (Some b))
            else resolve None)
         cacheNames).

(** An activate event runs both listeners, in registration order. *)
Definition activate_event : M (Settled unit * Settled (list (option bool))) :=
  a <- activate_listener ;;
  b <- cleanup_listener ;;
  ret (a, b).

(** The host test that opens the fetch listener. *)
Definition excluded_host (requestUrl : URL) : bool :=
  includes (hostname requestUrl) "firebase.googleapis.com" ||
  includes (hostname requestUrl) "firestore.googleapis.com" ||
  includes (hostname requestUrl) "identitytoolkit.googleapis.com" ||
  includes (hostname requestUrl) "securetoken.googleapis.com" ||
  includes (hostname requestUrl) "googleapis.com" ||
  includes (hostname requestUrl) "gstatic.com".

(** The inner test, for the Firebase SDK files. *)
Definition sdk_asset (requestUrl : URL) : bool :=
  includes (hostname requestUrl) "gstatic.com" &&
  includes (pathname requestUrl) "firebase".

(** The callback of the network fetch of an app request. *)
Definition on_network_response (request : Request) (response : Response)
  : Promise (option Response) :=
  if negb (truthy (JsResponse response))
     || negb (status (data response) =? 200)
     || negb (bool_decide (type (data response) = Basic))
  then resolve (Some response)
  else
    then_ (clone response)
      (fun responseToCache =>
         catch_
           (then_ (caches_open CACHE_NAME)
              (fun cache =>
                 cache_put cache (href (url request)) responseToCache ;;;
                 resolve tt))
           (fun error =>
              console LWarn ["Service Worker: Failed to cache resource:"; error_name error] ;;;
              resolve tt) ;;;
         resolve (Some response)).

(** The rejection handler of the app-request chain. *)
Definition on_failure (request : Request) (error : JsError) : Promise (option Response) :=
  console LError ["Service Worker: Fetch failed for"; href (url request); error_name error] ;;;
  if bool_decide (mode request = Navigate) then
    v <- js_or (as_value (caches_match_url (String.append BASE_PATH "/index.html")))
               (as_value (caches_match_url (String.append BASE_PATH "/"))) ;;
    ret (settle v)
  else
    r <- new_Response "Offline - resource not available" 503 "Service Unavailable" ;;
    resolve (Some r).

(** The promise answered with for the Firebase SDK files: cache, then
    network. *)
Definition sdk_cache_first (request : Request) : Promise (option Response) :=
  then_ (caches_match (href (url request)))
    (fun cachedResponse =>
       match cachedResponse with
       | Some r => resolve (Some r)
       | None => then_ (fetch (href (url request))) (fun r => resolve (Some r))
       end).

(** The promise answered with for app requests. *)
Definition app_cache_first (request : Request) : Promise (option Response) :=
  catch_
    (then_ (caches_match (href (url request)))
       (fun response =>
          match response with
          | Some r =>
              console LLog ["Service Worker: Serving from cache:"; href (url request)] ;;;
              resolve (Some r)
          | None =>
              console LLog ["Service Worker: Fetching from network:"; href (url request)] ;;;
              then_ (fetch (href (url request))) (on_network_response request)
          end))
    (on_failure request).

(** The fetch listener. *)
Definition fetch_listener (request : Request) : M Action :=
  let requestUrl := url request in
  if excluded_host requestUrl then
    if sdk_asset requestUrl then
      s <- sdk_cache_first request ;;
      ret (RespondWith s)
    else ret Passthrough
  else
    s <- app_cache_first request ;;
    ret (RespondWith s).

End V2.

(** ** The earlier worker (cache name raj-app-v1) *)

Module V1.

Definition CACHE_NAME : string := "raj-app-v1".
Definition BASE_PATH : string := "/raj-app".

Definition urlsToCache : list string :=
  [ String.append BASE_PATH "/";
    String.append BASE_PATH "/index.html";
    String.append BASE_PATH "/manifest.json";
    String.append BASE_PATH "/icons/icons-192x192.jpg";
    String.append BASE_PATH "/icons/icons-512x512.jpg" ].

Definition install_listener : Promise unit :=
  console LLog ["Service Worker: Installing..."] ;;;
  catch_
    (then_
       (then_ (caches_open CACHE_NAME)
          (fun cache =>
             console LLog ["Service Worker: Caching files"] ;;;
             cache_addAll cache urlsToCache))
       (fun _ =>
          console LLog ["Service Worker: Installation complete"] ;;;
          skipWaiting))
    (fun error =>
       console LLog ["Service Worker: Cache failed"; error_name error] ;;;
       resolve tt).

Definition activate_listener : Promise unit :=
  console LLog ["Service Worker: Activating..."] ;;;
  then_
    (then_ caches_keys
       (fun cacheNames =>
          all_map
            (fun cacheName =>
               if negb (String.eqb cacheName CACHE_NAME) then
                 console LLog ["Service Worker: Deleting old cache"; cacheName] ;;;
                 then_ (caches_delete cacheName) (fun b => resolve (Some b))
               else resolve None)
            cacheNames))
    (fun _ =>
       console LLog ["Service Worker: Activation complete"] ;;;
       clients_claim).

(** The test that opens the fetch listener, on the whole URL. *)
Definition excluded_url (request : Request) : bool :=
  includes (href (url request)) "firestore.googleapis.com" ||
  includes (href (url request)) "firebase.googleapis.com" ||
  includes (href (url request)) "googleapis.com".

Definition on_network_response (request : Request) (response : Response)
  : Promise (option Response) :=
  if negb (truthy (JsResponse response))
     || negb (status (data response) =? 200)
     || negb (bool_decide (type (data response) = Basic))
  then resolve (Some response)
  else
    then_ (clone response)
      (fun responseToCache =>
         then_ (caches_open CACHE_NAME)
           (fun cache =>
              cache_put cache (href (url request)) responseToCache ;;;
              resolve tt) ;;;
         resolve (Some response)).

(** The rejection handler of the network fetch: it logs and returns
    nothing. *)
Definition on_failure (request : Request) (error : JsError) : Promise (option Response) :=
  console LError ["Service Worker: Fetch failed and no cache match for";
                  href (url request); error_name error] ;;;
  resolve None.

(** The promise answered with for app requests. *)
Definition app_cache_first (request : Request) : Promise (option Response) :=
  then_ (caches_match (href (url request)))
    (fun response =>
       match response with
       | Some r => resolve (Some r)
       | None =>
           catch_
             (then_ (fetch (href (url request))) (on_network_response request))
             (on_failure request)
       end).

Definition fetch_listener (request : Request) : M Action :=
  if excluded_url request then ret Passthrough
  else
    s <- app_cache_first request ;;
    ret (RespondWith s).

End V1.

(** ** Observations *)

(** What the store of that name holds for a key. *)
Definition lookup_store (name key : string) (w : World) : option ResponseData :=
  match find_cache name (storage w) with
  | Some c => c !! key
  | None => None
  end.

(** [caches.keys()] as an observation. *)
Definition store_names (w : World) : list string := map fst (storage w).

(** How many stores hold an entry for the key. *)
Definition entries_for (key : string) (w : World) : nat :=
  length (List.filter (fun nc => bool_decide (is_Some (snd nc !! key))) (storage w)).


(** Effects that read a cache store, and effects that write one. *)
Definition reads_store (x : Effect) : bool :=
  match x with
  | CacheMatch _ | CacheKeys => true
  | _ => false
  end.

Definition writes_store (x : Effect) : bool :=
  match x with
  | CacheOpen _ | CachePut _ _ | CacheAddAll _ _ | CacheDelete _ => true
  | _ => false
  end.

Definition touches_network (x : Effect) : bool :=
  match x with
  | NetFetch _ | CacheAddAll _ _ => true
  | _ => false
  end.

(** ** Sample worlds *)

Definition empty_world : World := mkWorld [] [] [].

Definition page (b : string) : ResponseData := mkData 200 "OK" Basic b.

Definition app_url (path : string) : URL :=
  mkURL "https:" "drono-coder.github.io" "" path "" "".

(** A network that serves everything. *)
Definition online : Env :=
  mkEnv "https://drono-coder.github.io" (fun k => Some (page (String.append "content of " k))).

(** No connectivity. *)
Definition offline : Env :=
  mkEnv "https://drono-coder.github.io" (fun _ => None).

(** The effects of a run that took [w] to [w']. *)
Definition effects_since (w w' : World) : list Effect :=
  drop (length (trace w)) (trace w').

(** The storage once the store of that name has been opened. *)
Definition opened (name : string) (s : list (string * gmap string ResponseData))
  : list (string * gmap string ResponseData) :=
  match find_cache name s with
  | Some _ => s
  | None => s ++ [(name, ∅)]
  end.

(** ** The two workers side by side *)

Inductive Worker :=
  | Enhanced   (* raj-app-v2 *)
  | Earlier.   (* raj-app-v1 *)

Definition cache_name_of (v : Worker) : string :=
  match v with
  | Enhanced => V2.CACHE_NAME
  | Earlier => V1.CACHE_NAME
  end.

Definition manifest_of (v : Worker) : list string :=
  match v with
  | Enhanced => V2.urlsToCache
  | Earlier => V1.urlsToCache
  end.

(** Whether the worker's fetch listener takes the request for an excluded
    one. *)
Definition excluded_by (v : Worker) (request : Request) : bool :=
  match v with
  | Enhanced => V2.excluded_host (url request)
  | Earlier => V1.excluded_url request
  end.

Definition fetch_listener_of (v : Worker) : Request -> M Action :=
  match v with
  | Enhanced => V2.fetch_listener
  | Earlier => V1.fetch_listener
  end.

Definition install_listener_of (v : Worker) : Promise unit :=
  match v with
  | Enhanced => V2.install_listener
  | Earlier => V1.install_listener
  end.

(** All the activate listeners of the worker, in registration order. *)
Definition activate_of (v : Worker) : M unit :=
  match v with
  | Enhanced => V2.activate_event ;;; ret tt
  | Earlier => V1.activate_listener ;;; ret tt
  end.

(** The synthesized answer of the v2 worker when the network fails. *)
Definition unavailable : ResponseData :=
  mkData 503 "Service Unavailable" Default "Offline - resource not available".

(** The answers the fetch listeners store: the complement of the test
    [!response || response.status !== 200 || response.type !== 'basic']. *)
Definition cacheable (d : ResponseData) : bool :=
  (status d =? 200) && bool_decide (type d = Basic).

(** ** The cache-first law *)


(** ** Sample requests and worlds *)

Definition app_request : Request := mkRequest (app_url "/raj-app/app.js") NoCors.

Definition orders_navigation : Request := mkRequest (app_url "/raj-app/orders") Navigate.



Definition sdk_request : Request :=
  mkRequest (mkURL "https:" "www.gstatic.com" "" "/firebasejs/9.23.0/firebase-app-compat.js" "" "")
    NoCors.

Definition firestore_request : Request :=
  mkRequest (mkURL "https:" "firestore.googleapis.com" "" "/v1/projects/raj/documents" "" "")
    Cors.

Definition lookalike_request : Request :=
  mkRequest (mkURL "https:" "gstatic.com.attacker.example" "" "/x.js" "" "") NoCors.

(** A world with an older store next to the current one. *)
Definition two_generations : World :=
  mkWorld [("raj-app-v1", {[ "https://drono-coder.github.io/raj-app/" := page "old" ]});
           ("raj-app-v2", {[ "https://drono-coder.github.io/raj-app/" := page "new" ]})]
    [] [].

(** A world whose current store holds the root document only. *)
Definition root_only : World :=
  mkWorld [("raj-app-v2", {[ "https://drono-coder.github.io/raj-app/" := page "root" ]})]
    [] [].


(** Whether the network answers every key with a response that
    [cache.addAll] accepts. *)
Definition answers_ok (e : Env) (keys : list string) : bool :=
  forallb (fun k => match net e k with Some d => addable d | None => false end) keys.

(** The keys of a manifest. *)
Definition keys_of (e : Env) (urls : list string) : list string :=
  map (resolve_url e) urls.

(** The callback the activate listeners map over the store names: delete
    the stores selected by [P], after a console line. *)
Definition sweep (P : string -> bool) (msg : string) (cacheName : string)
  : Promise (option bool) :=
  if P cacheName then
    console LLog [msg; cacheName] ;;;
    then_ (caches_delete cacheName) (fun b => resolve (Some b))
  else resolve None.

(** The two activate listeners of the v2 worker when their work overlaps:
    both have called [caches.keys()] before either deletes a store. *)
Definition V2_activate_event_overlapped : M (Settled unit * Settled (list (option bool))) :=
  console LLog ["Service Worker: Activating v2..."] ;;;
  k1 <- caches_keys ;;
  k2 <- caches_keys ;;
  a <- then_
         (then_ (ret k1)
            (all_map (sweep (fun n => negb (String.eqb n V2.CACHE_NAME))
                        "Service Worker: Deleting old cache")))
         (fun _ => console LLog ["Service Worker: Activation complete"] ;;; clients_claim) ;;
  b <- then_ (ret k2)
         (all_map (sweep (fun n => startsWith n "raj-app-" && negb (String.eqb n V2.CACHE_NAME))
                     "Service Worker: Removing old cache:")) ;;
  ret (a, b).

(** ** The other listeners of the v2 worker: sync, push, notification click, message *)

Module Events.

(** A JSON value as far as the listeners look at it: whether it is truthy,
    and whether it is a given string. Integers stand for the numbers;
    objects and arrays are [JObject]. *)
Inductive Json :=
  | JUndefined
  | JNull
  | JBool (b : bool)
  | JNum (z : Z)
  | JStr (s : string)
  | JObject.

Definition json_truthy (j : Json) : bool :=
  match j with
  | JUndefined | JNull => false
  | JBool b => b
  | JNum z => negb (z =? 0)
  | JStr s => negb (String.eqb s "")
  | JObject => true
  end.

(** [a || b] on values. *)
Definition json_or (a b : Json) : Json := if json_truthy a then a else b.

(** [j === s] for a string literal [s]. *)
Definition json_is (j : Json) (s : string) : bool :=
  match j with
  | JStr t => String.eqb t s
  | _ => false
  end.

(** The objects the listeners post. *)
Inductive Message :=
  | SyncAvailable (timestamp : Z)                    (* {type: 'SYNC_AVAILABLE', timestamp} *)
  | VersionReply (version : string) (timestamp : Z). (* {version, timestamp} *)

Record NotificationAction := mkAction {
  action : string;
  title : string;
  icon : string
}.

(** The options object of the push listener; [dateOfArrival] and
    [primaryKey] are the fields of its [data]. *)
Record NotificationOptions := mkOptions {
  body : Json;
  options_icon : string;
  badge : string;
  vibrate : list Z;
  dateOfArrival : Z;
  primaryKey : Json;
  actions : list NotificationAction
}.

(** What these listeners do to the outside, in program order. *)
Inductive Signal :=
  | Log (text : string) (arg : option string)   (* console.log(text, arg) *)
  | RequestSkipWaiting                          (* self.skipWaiting() *)
  | MatchAll                                    (* self.clients.matchAll() *)
  | PostMessage (client : nat) (m : Message)    (* client.postMessage(m) *)
  | PortMessage (port : nat) (m : Message)      (* event.ports[0].postMessage(m) *)
  | ShowNotification (title : Json) (options : NotificationOptions)
  | CloseNotification                           (* event.notification.close() *)
  | OpenWindow (url : string).                  (* clients.openWindow(url) *)

(** What the listeners cannot change: the worker's origin, the clients
    [matchAll] answers with, and the clock, read by [Date.now()] call
    after call. *)
Record Page := mkPage {
  location_origin : string;
  clients : list nat;
  time : nat -> Z
}.

Record Host := mkHost {
  ticks : nat;             (* calls of Date.now() so far *)
  signals : list Signal    (* oldest first *)
}.

Definition H (A : Type) : Type := Page -> Host -> A * Host.

Definition hret {A} (a : A) : H A := fun _ h => (a, h).
Definition hbind {A B} (m : H A) (f : A -> H B) : H B :=
  fun p h => let (a, h') := m p h in f a p h'.

Declare Scope ev_scope.
Delimit Scope ev_scope with ev.
Notation "x <- m ;; k" := (hbind m (fun x => k))
  (at level 100, m at next level, right associativity) : ev_scope.
Notation "m ;;; k" := (hbind m (fun _ => k))
  (at level 100, right associativity) : ev_scope.
Local Open Scope ev_scope.

Definition ask_page : H Page := fun p h => (p, h).
Definition signal (x : Signal) : H unit :=
  fun _ h => (tt, mkHost (ticks h) (signals h ++ [x])).

(** [Date.now()] *)
Definition Date_now : H Z :=
  fun p h => (time p (ticks h), mkHost (S (ticks h)) (signals h)).

(** [xs.forEach(f)] *)
Fixpoint forEach {A} (xs : list A) (f : A -> H unit) : H unit :=
  match xs with
  | [] => hret tt
  | x :: xs' => f x ;;; forEach xs' f
  end.

(** How a listener ends: it returns, or an exception leaves it. *)
Inductive Thrown :=
  | NoReplyPort      (* event.ports[0] is undefined *)
  | NotJson          (* event.data.json() of a payload that is not JSON *)
  | NullPayload.     (* a property of the payload null *)

Inductive Outcome :=
  | Returned
  | Threw (x : Thrown).

(** *** sync *)

Definition sync_listener (tag : string) : H unit :=
  signal (Log "Service Worker: Background sync triggered:" (Some tag)) ;;;
  if String.eqb tag "firebase-sync" then
    signal MatchAll ;;;
    p <- ask_page ;;
    forEach (clients p)
      (fun client =>
         timestamp <- Date_now ;;
         signal (PostMessage client (SyncAvailable timestamp)))
  else hret tt.

(** *** push *)

(** What [event.data.json()] gives: null, or a value with the three
    properties the listener reads (undefined where it has none). *)
Inductive Payload :=
  | PNull
  | PValue (title body primaryKey : Json).

(** [event.data] of a push event. *)
Inductive PushData :=
  | NoData
  | Unparsable
  | Parsed (p : Payload).

Definition icon_192 : string := String.append V2.BASE_PATH "/icons/icons-192x192.jpg".

Definition push_listener (data : PushData) : H Outcome :=
  signal (Log "Service Worker: Push notification received" None) ;;;
  match data with
  | NoData => hret Returned
  | Unparsable => hret (Threw NotJson)
  | Parsed PNull => hret (Threw NullPayload)
  | Parsed (PValue data_title data_body data_primaryKey) =>
      now <- Date_now ;;
      let options :=
        mkOptions
          (json_or data_body (JStr "You have a new notification"))
          icon_192
          icon_192
          [100; 50; 100]
          now
          (json_or data_primaryKey (JStr "default"))
          [ mkAction "explore" "View App" icon_192;
            mkAction "close" "Close notification" icon_192 ] in
      signal (ShowNotification (json_or data_title (JStr "Raj Enterprise")) options) ;;;
      hret Returned
  end.

(** *** notificationclick *)

Definition notificationclick_listener (event_action : string) : H unit :=
  signal (Log "Service Worker: Notification click received." None) ;;;
  signal CloseNotification ;;;
  if String.eqb event_action "explore" then
    p <- ask_page ;;
    signal (OpenWindow (String.append (location_origin p) (String.append V2.BASE_PATH "/")))
  else hret tt.

(** *** message *)

(** A message event: [data] is [None] when [event.data] is falsy, else the
    value of [event.data.type]; [ports] are the transferred ports. *)
Record MessageEvent := mkMessage {
  data : option Json;
  ports : list nat
}.

(** [event.data && event.data.type === s] *)
Definition has_type (event : MessageEvent) (s : string) : bool :=
  match data event with
  | Some t => json_is t s
  | None => false
  end.

Definition message_listener (event : MessageEvent) : H Outcome :=
  signal (Log "Service Worker: Message received:" None) ;;;
  (if has_type event "SKIP_WAITING" then signal RequestSkipWaiting else hret tt) ;;;
  if has_type event "GET_VERSION" then
    match ports event with
    | [] => hret (Threw NoReplyPort)
    | port :: _ =>
        timestamp <- Date_now ;;
        signal (PortMessage port (VersionReply V2.CACHE_NAME timestamp)) ;;;
        hret Returned
    end
  else hret Returned.

(** *** Observations *)

Definition signals_since (h h' : Host) : list Signal :=
  drop (length (signals h)) (signals h').

(** The clients posted to, with what they were sent, in order. *)
Fixpoint posted (l : list Signal) : list (nat * Message) :=
  match l with
  | [] => []
  | PostMessage c m :: l' => (c, m) :: posted l'
  | _ :: l' => posted l'
  end.

(** The notifications shown, in order. *)
Fixpoint shown (l : list Signal) : list (Json * NotificationOptions) :=
  match l with
  | [] => []
  | ShowNotification t o :: l' => (t, o) :: shown l'
  | _ :: l' => shown l'
  end.

(** The windows opened, in order. *)
Fixpoint opened_windows (l : list Signal) : list string :=
  match l with
  | [] => []
  | OpenWindow u :: l' => u :: opened_windows l'
  | _ :: l' => opened_windows l'
  end.

Definition idle : Host := mkHost 0 [].

End Events.


(** The clients with the message each is sent when the clock is read once
    per client, from reading [k] on. *)
Fixpoint stamped (p : Events.Page) (k : nat) (cs : list nat) : list (nat * Events.Message) :=
  match cs with
  | [] => []
  | c :: cs' => (c, Events.SyncAvailable (Events.time p k)) :: stamped p (S k) cs'
  end.

(** The page of the sample worker, with two clients. *)
Definition two_clients : Events.Page :=
  Events.mkPage "https://drono-coder.github.io" [7%nat; 9%nat] (fun n => 1000 + Z.of_nat n).

(** * Facts *)

(** ** Substrings *)

Lemma startsWith_app (s p b : string) :
  startsWith s p = true -> startsWith (String.append s b) p = true.
Proof.
  revert s; induction p as [|a p IH]; intros s H;
    [destruct s; simpl; [destruct b|]; reflexivity|].
  destruct s as [|c s]; simpl in *; [discriminate|].
  destruct (Ascii.eqb a c); [auto | discriminate].
Qed.

Lemma includes_cons (c : ascii) (s n : string) :
  includes (String c s) n = startsWith (String c s) n || includes s n.
Proof. reflexivity. Qed.

Lemma includes_app_r (s n b : string) :
  includes s n = true -> includes (String.append s b) n = true.
Proof.
  induction s as [|c s IH]; intros H.
  - destruct n; [|discriminate]. destruct b; reflexivity.
  - rewrite includes_cons in H. change (String.append (String c s) b) with (String c (String.append s b)).
    rewrite includes_cons.
    apply orb_true_iff in H as [H|H].
    + apply (startsWith_app _ _ b) in H.
      change (String.append (String c s) b) with (String c (String.append s b)) in H.
      rewrite H. reflexivity.
    + rewrite (IH H). apply orb_true_r.
Qed.

Lemma includes_app_l (a s n : string) :
  includes s n = true -> includes (String.append a s) n = true.
Proof.
  induction a as [|c a IH]; intros H; [exact H|].
  change (String.append (String c a) s) with (String c (String.append a s)).
  rewrite includes_cons, (IH H). apply orb_true_r.
Qed.

Lemma includes_host (u : URL) (n : string) :
  includes (hostname u) n = true -> includes (host u) n = true.
Proof.
  intros H. unfold host. destruct (String.eqb (port u) ""); [exact H|].
  apply includes_app_r, H.
Qed.

Lemma includes_href (u : URL) (n : string) :
  includes (hostname u) n = true -> includes (href u) n = true.
Proof.
  intros H. unfold href.
  do 2 apply includes_app_l. apply includes_app_r, includes_host, H.
Qed.
(** ** Cache storage *)

Lemma eqb_refl_true (n : string) : String.eqb n n = true.
Proof. apply String.eqb_refl. Qed.

Lemma match_all_None (key : string) (s : list (string * gmap string ResponseData)) :
  match_all key s = None <-> forall n c, In (n, c) s -> c !! key = None.
Proof.
  induction s as [|[n c] s IH]; simpl.
  - split; [intros _ ? ? []|reflexivity].
  - destruct (c !! key) eqn:E.
    + split; [discriminate|]. intros H. specialize (H n c (or_introl eq_refl)). congruence.
    + rewrite IH. split.
      * intros H n' c' [X|X]; [congruence|eauto].
      * intros H n' c' X. eauto.
Qed.


Lemma opened_cons (name n : string) c s :
  String.eqb n name = false ->
  opened name ((n, c) :: s) = (n, c) :: opened name s.
Proof.
  intros H. unfold opened. simpl. rewrite H. destruct (find_cache name s); reflexivity.
Qed.


Lemma find_cache_put (name : string) f s :
  find_cache name (update_cache name f (opened name s)) =
  Some (f (default ∅ (find_cache name s))).
Proof.
  induction s as [|[n c] s IH].
  - unfold opened. simpl. rewrite eqb_refl_true. simpl. rewrite eqb_refl_true. reflexivity.
  - destruct (String.eqb n name) eqn:N.
    + unfold opened. simpl. rewrite N. simpl. rewrite N. simpl. rewrite N. reflexivity.
    + rewrite opened_cons by exact N. simpl. rewrite N. simpl. rewrite N. exact IH.
Qed.

(** Other stores and other keys are as before. *)
Lemma find_cache_put_other (name n : string) f s :
  n <> name ->
  find_cache n (update_cache name f (opened name s)) = find_cache n s.
Proof.
  intros Hn. induction s as [|[m c] s IH].
  - unfold opened. simpl. rewrite eqb_refl_true. simpl.
    destruct (String.eqb name n) eqn:E; [apply String.eqb_eq in E; congruence|reflexivity].
  - destruct (String.eqb m name) eqn:N.
    + unfold opened. simpl. rewrite N. simpl. rewrite N. simpl.
      apply String.eqb_eq in N. subst m.
      destruct (String.eqb name n) eqn:E; [apply String.eqb_eq in E; congruence|reflexivity].
    + rewrite opened_cons by exact N. simpl. rewrite N. simpl. rewrite IH. reflexivity.
Qed.

(** ** Body streams *)

Lemma readable_fresh (s : list (string * gmap string ResponseData)) (l : list bool) (t : list Effect) :
  readable (mkWorld s (l ++ [false]) t) (length l) = true.
Proof. unfold readable. simpl. rewrite list_lookup_middle by reflexivity. reflexivity. Qed.

Lemma readable_older s (l : list bool) t (i : nat) b :
  (i < length l)%nat ->
  readable (mkWorld s (l ++ [b]) t) i = readable (mkWorld s l t) i.
Proof. intros H. unfold readable. simpl. rewrite lookup_app_l by exact H. reflexivity. Qed.

Lemma readable_after_read s (l : list bool) t t' (i j : nat) :
  i <> j ->
  readable (mkWorld s (<[ j := true ]> l) t) i = readable (mkWorld s l t') i.
Proof. intros H. unfold readable. simpl. rewrite list_lookup_insert_ne by congruence. reflexivity. Qed.

Lemma insert_last (l : list bool) (x y : bool) :
  <[ length l := x ]> (l ++ [y]) = l ++ [x].
Proof.
  replace (length l) with (length l + 0)%nat by lia.
  rewrite insert_app_r. reflexivity.
Qed.

(** ** Runs of the v2 fetch listener *)

Ltac run :=
  unfold caches_match_url, caches_match, caches_open, cache_put, fetch, clone,
    new_Response, as_value, js_or, then_, catch_, resolve, reject, console, emit,
    set_storage, fresh_stream, mark_used, bind, ret, ask, get; cbn.

Lemma V2_app_hit e w req d :
  match_all (href (url req)) (storage w) = Some d ->
  V2.app_cache_first req e w =
  (Fulfilled (Some (mkResponse d (length (streams w)))),
   mkWorld (storage w) (streams w ++ [false])
     (trace w ++ [CacheMatch (href (url req));
                  Console LLog ["Service Worker: Serving from cache:"; href (url req)]])).
Proof.
  intros H. unfold V2.app_cache_first. run. rewrite H. cbn.
  rewrite <- app_assoc. reflexivity.
Qed.

Lemma V2_app_miss_uncacheable e w req d :
  match_all (href (url req)) (storage w) = None ->
  net e (href (url req)) = Some d ->
  cacheable d = false ->
  V2.app_cache_first req e w =
  (Fulfilled (Some (mkResponse d (length (streams w)))),
   mkWorld (storage w) (streams w ++ [false])
     (trace w ++ [CacheMatch (href (url req));
                  Console LLog ["Service Worker: Fetching from network:"; href (url req)];
                  NetFetch (href (url req))])).
Proof.
  intros H N C. unfold V2.app_cache_first, V2.on_network_response. run.
  rewrite H. cbn. rewrite N. cbn.
  unfold cacheable in C. apply andb_false_iff in C.
  assert (X : negb (status d =? 200) || negb (bool_decide (type d = Basic)) = true)
    by (destruct C as [-> | ->]; [reflexivity | apply orb_true_r]).
  rewrite X. cbn. rewrite <- !app_assoc. reflexivity.
Qed.

Lemma V2_app_miss_cacheable e w req d :
  match_all (href (url req)) (storage w) = None ->
  net e (href (url req)) = Some d ->
  cacheable d = true ->
  V2.app_cache_first req e w =
  (Fulfilled (Some (mkResponse d (length (streams w)))),
   mkWorld
     (update_cache V2.CACHE_NAME (fun c => <[ href (url req) := d ]> c)
        (opened V2.CACHE_NAME (storage w)))
     (streams w ++ [false; true])
     (trace w ++ [CacheMatch (href (url req));
                  Console LLog ["Service Worker: Fetching from network:"; href (url req)];
                  NetFetch (href (url req));
                  CacheOpen V2.CACHE_NAME;
                  CachePut V2.CACHE_NAME (href (url req))])).
Proof.
  intros H N C. unfold V2.app_cache_first, V2.on_network_response. run.
  rewrite H. cbn. rewrite N. cbn.
  unfold cacheable in C. apply andb_true_iff in C as [C1 C2].
  rewrite C1, C2. cbn. rewrite readable_fresh. cbn.
  unfold opened.
  destruct (find_cache V2.CACHE_NAME (storage w)); cbn;
    rewrite readable_fresh; cbn; rewrite insert_last, <- !app_assoc; reflexivity.
Qed.

Lemma V2_app_offline_other e w req :
  match_all (href (url req)) (storage w) = None ->
  net e (href (url req)) = None ->
  mode req <> Navigate ->
  V2.app_cache_first req e w =
  (Fulfilled (Some (mkResponse unavailable (length (streams w)))),
   mkWorld (storage w) (streams w ++ [false])
     (trace w ++ [CacheMatch (href (url req));
                  Console LLog ["Service Worker: Fetching from network:"; href (url req)];
                  NetFetch (href (url req));
                  Console LError ["Service Worker: Fetch failed for"; href (url req);
                                  error_name FetchFailed]])).
Proof.
  intros H N Hm. unfold V2.app_cache_first, V2.on_failure. run.
  rewrite H. cbn. rewrite N. cbn.
  rewrite bool_decide_eq_false_2 by exact Hm. cbn.
  rewrite <- !app_assoc. reflexivity.
Qed.

Lemma V2_app_offline_navigate e w req :
  match_all (href (url req)) (storage w) = None ->
  net e (href (url req)) = None ->
  mode req = Navigate ->
  V2.app_cache_first req e w =
  let t := trace w ++
      [CacheMatch (href (url req));
       Console LLog ["Service Worker: Fetching from network:"; href (url req)];
       NetFetch (href (url req));
       Console LError ["Service Worker: Fetch failed for"; href (url req);
                       error_name FetchFailed];
       CacheMatch (resolve_url e (String.append V2.BASE_PATH "/index.html"))] in
  match match_all (resolve_url e (String.append V2.BASE_PATH "/index.html")) (storage w) with
  | Some d =>
      (Fulfilled (Some (mkResponse d (length (streams w)))),
       mkWorld (storage w) (streams w ++ [false]) t)
  | None => (Fulfilled None, mkWorld (storage w) (streams w) t)
  end.
Proof.
  intros H N Hm. unfold V2.app_cache_first, V2.on_failure. run.
  rewrite H. cbn. rewrite N. cbn.
  rewrite bool_decide_eq_true_2 by exact Hm. cbn.
  destruct (match_all (resolve_url e _) (storage w)); cbn;
    rewrite <- !app_assoc; reflexivity.
Qed.

Lemma V2_sdk_hit e w req d :
  match_all (href (url req)) (storage w) = Some d ->
  V2.sdk_cache_first req e w =
  (Fulfilled (Some (mkResponse d (length (streams w)))),
   mkWorld (storage w) (streams w ++ [false])
     (trace w ++ [CacheMatch (href (url req))])).
Proof. intros H. unfold V2.sdk_cache_first. run. rewrite H. reflexivity. Qed.

Lemma V2_sdk_miss_online e w req d :
  match_all (href (url req)) (storage w) = None ->
  net e (href (url req)) = Some d ->
  V2.sdk_cache_first req e w =
  (Fulfilled (Some (mkResponse d (length (streams w)))),
   mkWorld (storage w) (streams w ++ [false])
     (trace w ++ [CacheMatch (href (url req)); NetFetch (href (url req))])).
Proof.
  intros H N. unfold V2.sdk_cache_first. run. rewrite H. cbn. rewrite N. cbn.
  rewrite <- !app_assoc. reflexivity.
Qed.

Lemma V2_sdk_miss_offline e w req :
  match_all (href (url req)) (storage w) = None ->
  net e (href (url req)) = None ->
  V2.sdk_cache_first req e w =
  (Rejected FetchFailed,
   mkWorld (storage w) (streams w)
     (trace w ++ [CacheMatch (href (url req)); NetFetch (href (url req))])).
Proof.
  intros H N. unfold V2.sdk_cache_first. run. rewrite H. cbn. rewrite N. cbn.
  rewrite <- !app_assoc. reflexivity.
Qed.

(** ** Runs of the v1 fetch listener *)

Lemma V1_app_hit e w req d :
  match_all (href (url req)) (storage w) = Some d ->
  V1.app_cache_first req e w =
  (Fulfilled (Some (mkResponse d (length (streams w)))),
   mkWorld (storage w) (streams w ++ [false])
     (trace w ++ [CacheMatch (href (url req))])).
Proof. intros H. unfold V1.app_cache_first. run. rewrite H. reflexivity. Qed.

Lemma V1_app_miss_uncacheable e w req d :
  match_all (href (url req)) (storage w) = None ->
  net e (href (url req)) = Some d ->
  cacheable d = false ->
  V1.app_cache_first req e w =
  (Fulfilled (Some (mkResponse d (length (streams w)))),
   mkWorld (storage w) (streams w ++ [false])
     (trace w ++ [CacheMatch (href (url req)); NetFetch (href (url req))])).
Proof.
  intros H N C. unfold V1.app_cache_first, V1.on_network_response. run.
  rewrite H. cbn. rewrite N. cbn.
  unfold cacheable in C. apply andb_false_iff in C.
  assert (X : negb (status d =? 200) || negb (bool_decide (type d = Basic)) = true)
    by (destruct C as [-> | ->]; [reflexivity | apply orb_true_r]).
  rewrite X. cbn. rewrite <- !app_assoc. reflexivity.
Qed.

Lemma V1_app_miss_cacheable e w req d :
  match_all (href (url req)) (storage w) = None ->
  net e (href (url req)) = Some d ->
  cacheable d = true ->
  V1.app_cache_first req e w =
  (Fulfilled (Some (mkResponse d (length (streams w)))),
   mkWorld
     (update_cache V1.CACHE_NAME (fun c => <[ href (url req) := d ]> c)
        (opened V1.CACHE_NAME (storage w)))
     (streams w ++ [false; true])
     (trace w ++ [CacheMatch (href (url req));
                  NetFetch (href (url req));
                  CacheOpen V1.CACHE_NAME;
                  CachePut V1.CACHE_NAME (href (url req))])).
Proof.
  intros H N C. unfold V1.app_cache_first, V1.on_network_response. run.
  rewrite H. cbn. rewrite N. cbn.
  unfold cacheable in C. apply andb_true_iff in C as [C1 C2].
  rewrite C1, C2. cbn. rewrite readable_fresh. cbn.
  unfold opened.
  destruct (find_cache V1.CACHE_NAME (storage w)); cbn;
    rewrite readable_fresh; cbn; rewrite insert_last, <- !app_assoc; reflexivity.
Qed.

Lemma V1_app_offline e w req :
  match_all (href (url req)) (storage w) = None ->
  net e (href (url req)) = None ->
  V1.app_cache_first req e w =
  (Fulfilled None,
   mkWorld (storage w) (streams w)
     (trace w ++ [CacheMatch (href (url req));
                  NetFetch (href (url req));
                  Console LError ["Service Worker: Fetch failed and no cache match for";
                                  href (url req); error_name FetchFailed]])).
Proof.
  intros H N. unfold V1.app_cache_first, V1.on_failure. run.
  rewrite H. cbn. rewrite N. cbn. rewrite <- !app_assoc. reflexivity.
Qed.

(** ** Substrings, as decompositions *)

Lemma append_cons (c : ascii) (a b : string) :
  String.append (String c a) b = String c (String.append a b).
Proof. reflexivity. Qed.

Lemma startsWith_spec (s p : string) :
  startsWith s p = true <-> exists post, s = String.append p post.
Proof.
  revert s; induction p as [|a p IH]; intros s.
  - split; [intros _; exists s; reflexivity | intros _; destruct s; reflexivity].
  - destruct s as [|c s].
    + split; [discriminate | intros [post H]; discriminate].
    + change (startsWith (String c s) (String a p))
        with (if Ascii.eqb a c then startsWith s p else false).
      destruct (Ascii.eqb_spec a c) as [->|Hne].
      * rewrite IH. split; intros [post H]; exists post.
        -- rewrite append_cons, H. reflexivity.
        -- rewrite append_cons in H. congruence.
      * split; [discriminate|]. intros [post H]. rewrite append_cons in H. congruence.
Qed.

Lemma includes_spec (s n : string) :
  includes s n = true <-> exists pre post, s = String.append pre (String.append n post).
Proof.
  induction s as [|c s IH].
  - change (includes "" n) with (startsWith "" n || false). rewrite orb_false_r, startsWith_spec.
    split.
    + intros [post H]. exists "", post. exact H.
    + intros [pre [post H]]. destruct pre; [exists post; exact H | discriminate].
  - rewrite includes_cons, orb_true_iff, startsWith_spec, IH. split.
    + intros [[post H] | [pre [post H]]].
      * exists "", post. exact H.
      * exists (String c pre), post. rewrite append_cons, H. reflexivity.
    + intros [pre [post H]]. destruct pre as [|a pre].
      * left. exists post. exact H.
      * right. exists pre, post. rewrite append_cons in H. congruence.
Qed.

Lemma append_assoc (a b c : string) :
  String.append (String.append a b) c = String.append a (String.append b c).
Proof.
  induction a as [|x a IH]; [reflexivity|].
  rewrite !append_cons, IH. reflexivity.
Qed.

(** A string that contains [a ++ b] contains [b]. *)
Lemma includes_suffix (s a b : string) :
  includes s (String.append a b) = true -> includes s b = true.
Proof.
  rewrite !includes_spec. intros [pre [post H]].
  exists (String.append pre a), post. rewrite H, !append_assoc. reflexivity.
Qed.

Lemma V2_excluded_host_spec (u : URL) :
  V2.excluded_host u =
  includes (hostname u) "googleapis.com" || includes (hostname u) "gstatic.com".
Proof.
  unfold V2.excluded_host.
  destruct (includes (hostname u) "googleapis.com") eqn:G.
  - rewrite !orb_true_r. reflexivity.
  - assert (X : forall a n, n = String.append a "googleapis.com" ->
                            includes (hostname u) n = false).
    { intros a n ->. destruct (includes _ (String.append a _)) eqn:E; [|reflexivity].
      apply includes_suffix in E. congruence. }
    rewrite (X "firebase." "firebase.googleapis.com" eq_refl),
      (X "firestore." "firestore.googleapis.com" eq_refl),
      (X "identitytoolkit." "identitytoolkit.googleapis.com" eq_refl),
      (X "securetoken." "securetoken.googleapis.com" eq_refl).
    reflexivity.
Qed.

Lemma V1_excluded_url_spec (request : Request) :
  V1.excluded_url request = includes (href (url request)) "googleapis.com".
Proof.
  unfold V1.excluded_url.
  destruct (includes (href (url request)) "googleapis.com") eqn:G.
  - rewrite !orb_true_r. reflexivity.
  - assert (X : forall a n, n = String.append a "googleapis.com" ->
                            includes (href (url request)) n = false).
    { intros a n ->. destruct (includes _ (String.append a _)) eqn:E; [|reflexivity].
      apply includes_suffix in E. congruence. }
    rewrite (X "firestore." "firestore.googleapis.com" eq_refl),
      (X "firebase." "firebase.googleapis.com" eq_refl).
    reflexivity.
Qed.

(** ** The fetch listeners, branch by branch *)

Lemma effects_since_app (w w' : World) (t : list Effect) :
  trace w' = trace w ++ t -> effects_since w w' = t.
Proof. intros H. unfold effects_since. rewrite H. apply drop_app_length. Qed.

Lemma V2_fetch_app e w req :
  V2.excluded_host (url req) = false ->
  V2.fetch_listener req e w =
  (RespondWith (fst (V2.app_cache_first req e w)), snd (V2.app_cache_first req e w)).
Proof.
  intros H. unfold V2.fetch_listener. rewrite H. unfold bind, ret.
  destruct (V2.app_cache_first req e w). reflexivity.
Qed.

Lemma V2_fetch_sdk e w req :
  V2.excluded_host (url req) = true ->
  V2.sdk_asset (url req) = true ->
  V2.fetch_listener req e w =
  (RespondWith (fst (V2.sdk_cache_first req e w)), snd (V2.sdk_cache_first req e w)).
Proof.
  intros H S. unfold V2.fetch_listener. rewrite H, S. unfold bind, ret.
  destruct (V2.sdk_cache_first req e w). reflexivity.
Qed.

Lemma V2_fetch_passthrough e w req :
  V2.excluded_host (url req) = true ->
  V2.sdk_asset (url req) = false ->
  V2.fetch_listener req e w = (Passthrough, w).
Proof. intros H S. unfold V2.fetch_listener. rewrite H, S. reflexivity. Qed.

Lemma V1_fetch_app e w req :
  V1.excluded_url req = false ->
  V1.fetch_listener req e w =
  (RespondWith (fst (V1.app_cache_first req e w)), snd (V1.app_cache_first req e w)).
Proof.
  intros H. unfold V1.fetch_listener. rewrite H. unfold bind, ret.
  destruct (V1.app_cache_first req e w). reflexivity.
Qed.

Lemma V1_fetch_passthrough e w req :
  V1.excluded_url req = true ->
  V1.fetch_listener req e w = (Passthrough, w).
Proof. intros H. unfold V1.fetch_listener. rewrite H. reflexivity. Qed.




(** ** Seeding *)

Lemma fetch_all_run (keys : list string) e w :
  fetch_all keys e w =
  (map (fun k => (k, net e k)) keys,
   mkWorld (storage w) (streams w) (trace w ++ map NetFetch keys)).
Proof.
  revert w; induction keys as [|k ks IH]; intros w.
  - simpl. unfold ret. rewrite app_nil_r. destruct w; reflexivity.
  - simpl. unfold bind, emit, ask, ret. rewrite IH. simpl.
    rewrite <- app_assoc. reflexivity.
Qed.

Lemma all_ok_None (e : Env) (keys : list string) :
  answers_ok e keys = false ->
  all_ok (map (fun k => (k, net e k)) keys) = None.
Proof.
  induction keys as [|k ks IH]; simpl; [discriminate|].
  destruct (net e k) as [d|]; [|reflexivity].
  destruct (addable d); [|reflexivity]. simpl. intros H. rewrite (IH H). reflexivity.
Qed.

(** What [put_all] leaves under a key. *)
Lemma put_all_lookup (l : list (string * ResponseData)) (c : gmap string ResponseData)
      (g : string -> option ResponseData) (k : string) :
  (forall k' d, In (k', d) l -> g k' = Some d) ->
  In k (map fst l) \/ c !! k = g k ->
  put_all l c !! k = g k.
Proof.
  revert c; induction l as [|[k0 d0] l IH]; intros c Hg H.
  - destruct H as [[]|H]. exact H.
  - unfold put_all. simpl. apply IH.
    + intros k' d Hin. apply Hg. right. exact Hin.
    + destruct (decide (k0 = k)) as [->|Hne].
      * right. rewrite lookup_insert_eq. symmetry. apply Hg. left. reflexivity.
      * destruct H as [[H|H]|H].
        -- simpl in H. congruence.
        -- left. exact H.
        -- right. rewrite lookup_insert_ne by exact Hne. exact H.
Qed.

Lemma all_ok_sound (rs : list (string * option ResponseData)) l :
  all_ok rs = Some l ->
  map fst l = map fst rs /\ forall k d, In (k, d) l -> In (k, Some d) rs.
Proof.
  revert l; induction rs as [|[k [d|]] rs IH]; intros l H; simpl in H.
  - injection H as <-. split; [reflexivity | intros ? ? []].
  - destruct (addable d); [|discriminate].
    destruct (all_ok rs) as [l'|]; [|discriminate]. injection H as <-.
    destruct (IH l' eq_refl) as [A B]. split.
    + simpl. rewrite A. reflexivity.
    + intros k' d' [X|X]; [left; congruence | right; auto].
  - discriminate.
Qed.

Lemma all_ok_complete (e : Env) (keys : list string) :
  answers_ok e keys = true ->
  exists l, all_ok (map (fun k => (k, net e k)) keys) = Some l.
Proof.
  induction keys as [|k ks IH]; simpl; [eauto|].
  destruct (net e k) as [d|]; [|discriminate].
  destruct (addable d); [|discriminate]. simpl. intros H.
  destruct (IH H) as [l ->]. eauto.
Qed.

Lemma seeded_lookup (e : Env) (keys : list string) l c k :
  all_ok (map (fun k => (k, net e k)) keys) = Some l ->
  In k keys ->
  put_all l c !! k = net e k.
Proof.
  intros H Hin. destruct (all_ok_sound _ _ H) as [A B].
  apply put_all_lookup.
  - intros k' d X. apply B in X. apply in_map_iff in X as [k'' [E _]]. congruence.
  - left. rewrite A, map_map. simpl. rewrite map_id. exact Hin.
Qed.

(** The seed of a cache, whichever worker runs it. *)
Lemma addAll_fails (name : string) (urls : list string) e w :
  answers_ok e (keys_of e urls) = false ->
  cache_addAll name urls e w =
  (Rejected AddAllFailed,
   mkWorld (storage w) (streams w)
     (trace w ++ CacheAddAll name (keys_of e urls) :: map NetFetch (keys_of e urls))).
Proof.
  intros H. unfold cache_addAll, bind, ask, emit. rewrite fetch_all_run. simpl.
  fold (keys_of e urls). rewrite (all_ok_None _ _ H). unfold reject, ret.
  rewrite <- app_assoc. reflexivity.
Qed.

Lemma addAll_succeeds (name : string) (urls : list string) e w :
  answers_ok e (keys_of e urls) = true ->
  exists l,
    all_ok (map (fun k => (k, net e k)) (keys_of e urls)) = Some l /\
    cache_addAll name urls e w =
    (Fulfilled tt,
     mkWorld (update_cache name (put_all l) (storage w)) (streams w)
       (trace w ++ CacheAddAll name (keys_of e urls) :: map NetFetch (keys_of e urls))).
Proof.
  intros H. destruct (all_ok_complete _ _ H) as [l Hl]. exists l. split; [exact Hl|].
  unfold cache_addAll, bind, ask, emit. rewrite fetch_all_run. simpl.
  fold (keys_of e urls). rewrite Hl. unfold get, set_storage, resolve, ret. simpl.
  rewrite <- app_assoc. reflexivity.
Qed.

Lemma open_run (name : string) e w :
  caches_open name e w =
  (Fulfilled name, mkWorld (opened name (storage w)) (streams w) (trace w ++ [CacheOpen name])).
Proof.
  unfold opened. run. destruct (find_cache name (storage w)); reflexivity.
Qed.

Lemma V2_install_fails e w :
  answers_ok e (keys_of e V2.urlsToCache) = false ->
  V2.install_listener e w =
  (Fulfilled tt,
   mkWorld (opened V2.CACHE_NAME (storage w)) (streams w)
     (trace w ++
      [Console LLog ["Service Worker: Installing v2..."];
       CacheOpen V2.CACHE_NAME;
       Console LLog ["Service Worker: Caching app shell and Firebase SDK"];
       CacheAddAll V2.CACHE_NAME (keys_of e V2.urlsToCache)] ++
      map NetFetch (keys_of e V2.urlsToCache) ++
      [Console LError ["Service Worker: Cache failed"; error_name AddAllFailed]])).
Proof.
  intros H. unfold V2.install_listener, then_, catch_, bind, console, emit.
  rewrite open_run. cbn [storage streams trace].
  rewrite (addAll_fails _ _ _ _ H). unfold reject, resolve, ret. cbn [storage streams trace].
  rewrite <- !app_assoc. reflexivity.
Qed.

Lemma V2_install_succeeds e w :
  answers_ok e (keys_of e V2.urlsToCache) = true ->
  exists l,
    all_ok (map (fun k => (k, net e k)) (keys_of e V2.urlsToCache)) = Some l /\
    V2.install_listener e w =
    (Fulfilled tt,
     mkWorld (update_cache V2.CACHE_NAME (put_all l) (opened V2.CACHE_NAME (storage w)))
       (streams w)
       (trace w ++
        [Console LLog ["Service Worker: Installing v2..."];
         CacheOpen V2.CACHE_NAME;
         Console LLog ["Service Worker: Caching app shell and Firebase SDK"];
         CacheAddAll V2.CACHE_NAME (keys_of e V2.urlsToCache)] ++
        map NetFetch (keys_of e V2.urlsToCache) ++
        [Console LLog ["Service Worker: Installation complete"]; SkipWaiting])).
Proof.
  intros H. unfold V2.install_listener, then_, catch_, bind, console, emit.
  rewrite open_run. cbn [storage streams trace].
  destruct (addAll_succeeds V2.CACHE_NAME V2.urlsToCache e
              (mkWorld (opened V2.CACHE_NAME (storage w)) (streams w)
                 (((trace w ++ [Console LLog ["Service Worker: Installing v2..."]]) ++
                   [CacheOpen V2.CACHE_NAME]) ++
                  [Console LLog ["Service Worker: Caching app shell and Firebase SDK"]])) H)
    as [l [Hl Hrun]].
  exists l. split; [exact Hl|]. cbn [storage streams trace] in Hrun. rewrite Hrun.
  unfold skipWaiting, bind, emit, resolve, ret. cbn [storage streams trace].
  rewrite <- !app_assoc. reflexivity.
Qed.

Lemma V1_install_fails e w :
  answers_ok e (keys_of e V1.urlsToCache) = false ->
  V1.install_listener e w =
  (Fulfilled tt,
   mkWorld (opened V1.CACHE_NAME (storage w)) (streams w)
     (trace w ++
      [Console LLog ["Service Worker: Installing..."];
       CacheOpen V1.CACHE_NAME;
       Console LLog ["Service Worker: Caching files"];
       CacheAddAll V1.CACHE_NAME (keys_of e V1.urlsToCache)] ++
      map NetFetch (keys_of e V1.urlsToCache) ++
      [Console LLog ["Service Worker: Cache failed"; error_name AddAllFailed]])).
Proof.
  intros H. unfold V1.install_listener, then_, catch_, bind, console, emit.
  rewrite open_run. cbn [storage streams trace].
  rewrite (addAll_fails _ _ _ _ H). unfold reject, resolve, ret. cbn [storage streams trace].
  rewrite <- !app_assoc. reflexivity.
Qed.

Lemma V1_install_succeeds e w :
  answers_ok e (keys_of e V1.urlsToCache) = true ->
  exists l,
    all_ok (map (fun k => (k, net e k)) (keys_of e V1.urlsToCache)) = Some l /\
    V1.install_listener e w =
    (Fulfilled tt,
     mkWorld (update_cache V1.CACHE_NAME (put_all l) (opened V1.CACHE_NAME (storage w)))
       (streams w)
       (trace w ++
        [Console LLog ["Service Worker: Installing..."];
         CacheOpen V1.CACHE_NAME;
         Console LLog ["Service Worker: Caching files"];
         CacheAddAll V1.CACHE_NAME (keys_of e V1.urlsToCache)] ++
        map NetFetch (keys_of e V1.urlsToCache) ++
        [Console LLog ["Service Worker: Installation complete"]; SkipWaiting])).
Proof.
  intros H. unfold V1.install_listener, then_, catch_, bind, console, emit.
  rewrite open_run. cbn [storage streams trace].
  destruct (addAll_succeeds V1.CACHE_NAME V1.urlsToCache e
              (mkWorld (opened V1.CACHE_NAME (storage w)) (streams w)
                 (((trace w ++ [Console LLog ["Service Worker: Installing..."]]) ++
                   [CacheOpen V1.CACHE_NAME]) ++
                  [Console LLog ["Service Worker: Caching files"]])) H)
    as [l [Hl Hrun]].
  exists l. split; [exact Hl|]. cbn [storage streams trace] in Hrun. rewrite Hrun.
  unfold skipWaiting, bind, emit, resolve, ret. cbn [storage streams trace].
  rewrite <- !app_assoc. reflexivity.
Qed.

(** An opened store that was not there before is empty. *)
Lemma lookup_opened (name n key : string) (w : World) l t :
  lookup_store n key (mkWorld (opened name (storage w)) l t) = lookup_store n key w.
Proof.
  unfold lookup_store, opened. simpl.
  destruct (find_cache name (storage w)) eqn:F; [reflexivity|].
  induction (storage w) as [|[m c] s IH]; simpl in *.
  - destruct (String.eqb name n); [apply lookup_empty | reflexivity].
  - destruct (String.eqb m name) eqn:N; [discriminate|].
    destruct (String.eqb m n); [reflexivity | apply IH, F].
Qed.

(** ** Retiring stores *)

Lemma find_cache_None_filter (name : string) (s : list (string * gmap string ResponseData)) :
  find_cache name s = None ->
  List.filter (fun nc => negb (String.eqb (fst nc) name)) s = s.
Proof.
  induction s as [|[n c] s IH]; simpl; [reflexivity|].
  destruct (String.eqb n name); [discriminate|]. intros H. simpl. rewrite (IH H). reflexivity.
Qed.

Lemma delete_storage (name : string) e w :
  storage (snd (caches_delete name e w)) =
  List.filter (fun nc => negb (String.eqb (fst nc) name)) (storage w).
Proof.
  unfold caches_delete. run.
  destruct (find_cache name (storage w)) eqn:F; simpl; [reflexivity|].
  symmetry. apply find_cache_None_filter, F.
Qed.

Lemma delete_streams (name : string) e w :
  streams (snd (caches_delete name e w)) = streams w.
Proof.
  unfold caches_delete. run. destruct (find_cache name (storage w)); reflexivity.
Qed.

Lemma filter_filter {A} (f g : A -> bool) (l : list A) :
  List.filter f (List.filter g l) = List.filter (fun x => g x && f x) l.
Proof.
  induction l as [|x l IH]; simpl; [reflexivity|].
  destruct (g x); simpl; [destruct (f x)|]; rewrite IH; reflexivity.
Qed.

Lemma filter_all {A} (f : A -> bool) (l : list A) :
  (forall x, f x = true) -> List.filter f l = l.
Proof.
  intros H. induction l as [|x l IH]; simpl; [reflexivity|]. rewrite H, IH. reflexivity.
Qed.

Lemma sweep_step (P : string -> bool) (msg n : string) e w :
  storage (snd (sweep P msg n e w)) =
  List.filter (fun nc => negb (P n && String.eqb (fst nc) n)) (storage w) /\
  streams (snd (sweep P msg n e w)) = streams w.
Proof.
  unfold sweep. destruct (P n) eqn:Pn.
  - unfold bind, console, emit, then_, bind.
    match goal with |- context [caches_delete n e ?w0] =>
      pose proof (delete_storage n e w0) as S; pose proof (delete_streams n e w0) as T;
      destruct (caches_delete n e w0) as [r w1] end.
    simpl in S, T. destruct r; simpl; rewrite S, T; split; reflexivity.
  - simpl. split; [|reflexivity]. symmetry. apply filter_all. reflexivity.
Qed.

Lemma sweep_all (P : string -> bool) (msg : string) (names : list string) e w :
  storage (snd (all_map (sweep P msg) names e w)) =
  List.filter (fun nc => negb (existsb (fun n => P n && String.eqb (fst nc) n) names))
    (storage w) /\
  streams (snd (all_map (sweep P msg) names e w)) = streams w.
Proof.
  revert w; induction names as [|n names IH]; intros w.
  - simpl. split; [|reflexivity]. symmetry. apply filter_all. reflexivity.
  - simpl. unfold bind.
    destruct (sweep_step P msg n e w) as [S T].
    destruct (sweep P msg n e w) as [r w1]. simpl in S, T.
    destruct (IH w1) as [S' T'].
    destruct (all_map (sweep P msg) names e w1) as [r' w2]. simpl in S', T'.
    assert (X : storage w2 =
                List.filter (fun nc => negb (P n && String.eqb (fst nc) n ||
                   existsb (fun n0 => P n0 && String.eqb (fst nc) n0) names)) (storage w)).
    { rewrite S', S, filter_filter. apply filter_ext. intros nc.
      rewrite negb_orb. reflexivity. }
    destruct r, r'; simpl; rewrite X, T', T; split; reflexivity.
Qed.

Lemma existsb_name (P : string -> bool) (m : string) (names : list string) :
  In m names ->
  existsb (fun n => P n && String.eqb m n) names = P m.
Proof.
  intros Hin. destruct (P m) eqn:Pm.
  - apply existsb_exists. exists m. rewrite Pm, String.eqb_refl. split; [exact Hin | reflexivity].
  - destruct (existsb _ names) eqn:E; [|reflexivity].
    apply existsb_exists in E as [n [_ H]]. apply andb_true_iff in H as [H1 H2].
    apply String.eqb_eq in H2. subst n. congruence.
Qed.

(** Mapping the sweep over the store names themselves. *)
Lemma sweep_keys (P : string -> bool) (msg : string) e w :
  storage (snd (all_map (sweep P msg) (map fst (storage w)) e w)) =
  List.filter (fun nc => negb (P (fst nc))) (storage w) /\
  streams (snd (all_map (sweep P msg) (map fst (storage w)) e w)) = streams w.
Proof.
  destruct (sweep_all P msg (map fst (storage w)) e w) as [S T].
  split; [|exact T]. rewrite S. apply filter_ext_in. intros nc Hin.
  rewrite existsb_name; [reflexivity|]. apply in_map, Hin.
Qed.

Lemma V2_activate_listener_sweep :
  V2.activate_listener =
  (console LLog ["Service Worker: Activating v2..."] ;;;
   then_
     (then_ caches_keys
        (all_map (sweep (fun n => negb (String.eqb n V2.CACHE_NAME))
                    "Service Worker: Deleting old cache")))
     (fun _ => console LLog ["Service Worker: Activation complete"] ;;; clients_claim)).
Proof. reflexivity. Qed.

Lemma V2_cleanup_listener_sweep :
  V2.cleanup_listener =
  then_ caches_keys
    (all_map (sweep (fun n => startsWith n "raj-app-" && negb (String.eqb n V2.CACHE_NAME))
                "Service Worker: Removing old cache:")).
Proof. reflexivity. Qed.

Lemma V1_activate_listener_sweep :
  V1.activate_listener =
  (console LLog ["Service Worker: Activating..."] ;;;
   then_
     (then_ caches_keys
        (all_map (sweep (fun n => negb (String.eqb n V1.CACHE_NAME))
                    "Service Worker: Deleting old cache")))
     (fun _ => console LLog ["Service Worker: Activation complete"] ;;; clients_claim)).
Proof. reflexivity. Qed.

(** A listener that sweeps over [caches.keys()] and then goes on without
    touching the storage. *)
Lemma keys_sweep_storage (P : string -> bool) (msg : string) e w :
  storage (snd (then_ caches_keys (all_map (sweep P msg)) e w)) =
  List.filter (fun nc => negb (P (fst nc))) (storage w) /\
  streams (snd (then_ caches_keys (all_map (sweep P msg)) e w)) = streams w.
Proof.
  unfold then_, caches_keys, bind, emit, get, resolve, ret. cbn -[sweep].
  exact (sweep_keys P msg e (mkWorld (storage w) (streams w) (trace w ++ [CacheKeys]))).
Qed.

Lemma V2_activate_listener_storage e w :
  storage (snd (V2.activate_listener e w)) =
  List.filter (fun nc => String.eqb (fst nc) V2.CACHE_NAME) (storage w) /\
  streams (snd (V2.activate_listener e w)) = streams w.
Proof.
  rewrite V2_activate_listener_sweep.
  unfold then_, caches_keys, clients_claim, bind, console, emit, get, resolve, reject, ret.
  cbn -[sweep].
  pose proof (sweep_keys (fun n => negb (String.eqb n V2.CACHE_NAME))
                "Service Worker: Deleting old cache" e
                (mkWorld (storage w) (streams w)
                   ((trace w ++ [Console LLog ["Service Worker: Activating v2..."]]) ++ [CacheKeys])))
    as X.
  cbn [storage streams trace] in X.
  destruct (all_map _ (map fst (storage w)) e _) as [r w1]. destruct X as [S T].
  cbn [snd] in S, T.
  destruct r; cbn [snd storage streams]; rewrite S, T; (split; [|reflexivity]);
    apply filter_ext; intros nc; apply negb_involutive.
Qed.

Lemma V2_cleanup_listener_storage e w :
  storage (snd (V2.cleanup_listener e w)) =
  List.filter (fun nc => negb (startsWith (fst nc) "raj-app-" &&
                               negb (String.eqb (fst nc) V2.CACHE_NAME))) (storage w) /\
  streams (snd (V2.cleanup_listener e w)) = streams w.
Proof. rewrite V2_cleanup_listener_sweep. apply keys_sweep_storage. Qed.

Lemma V1_activate_listener_storage e w :
  storage (snd (V1.activate_listener e w)) =
  List.filter (fun nc => String.eqb (fst nc) V1.CACHE_NAME) (storage w) /\
  streams (snd (V1.activate_listener e w)) = streams w.
Proof.
  rewrite V1_activate_listener_sweep.
  unfold then_, caches_keys, clients_claim, bind, console, emit, get, resolve, reject, ret.
  cbn -[sweep].
  pose proof (sweep_keys (fun n => negb (String.eqb n V1.CACHE_NAME))
                "Service Worker: Deleting old cache" e
                (mkWorld (storage w) (streams w)
                   ((trace w ++ [Console LLog ["Service Worker: Activating..."]]) ++ [CacheKeys])))
    as X.
  cbn [storage streams trace] in X.
  destruct (all_map _ (map fst (storage w)) e _) as [r w1]. destruct X as [S T].
  cbn [snd] in S, T.
  destruct r; cbn [snd storage streams]; rewrite S, T; (split; [|reflexivity]);
    apply filter_ext; intros nc; apply negb_involutive.
Qed.

(** Activation, all listeners together. *)
Lemma activate_storage (v : Worker) e w :
  storage (snd (activate_of v e w)) =
  List.filter (fun nc => String.eqb (fst nc) (cache_name_of v)) (storage w) /\
  streams (snd (activate_of v e w)) = streams w.
Proof.
  destruct v; unfold activate_of.
  - unfold V2.activate_event, bind, ret.
    destruct (V2_activate_listener_storage e w) as [S T].
    destruct (V2.activate_listener e w) as [r w1]. simpl in S, T.
    destruct (V2_cleanup_listener_storage e w1) as [S' T'].
    destruct (V2.cleanup_listener e w1) as [r' w2]. simpl in S', T'. simpl.
    rewrite T', T, S', S, filter_filter. split; [|reflexivity].
    apply filter_ext. intros nc. simpl.
    destruct (String.eqb (fst nc) V2.CACHE_NAME); [|reflexivity].
    rewrite andb_false_r. reflexivity.
  - unfold bind, ret.
    destruct (V1_activate_listener_storage e w) as [S T].
    destruct (V1.activate_listener e w) as [r w1]. simpl in *. auto.
Qed.

(** The overlap changes which deletions are asked for, not which stores
    are left. *)
Lemma V2_activate_overlapped_storage e w :
  storage (snd (V2_activate_event_overlapped e w)) =
  List.filter (fun nc => String.eqb (fst nc) V2.CACHE_NAME) (storage w).
Proof.
  unfold V2_activate_event_overlapped.
  unfold then_, caches_keys, clients_claim, bind, console, emit, get, resolve, reject, ret.
  cbn -[sweep].
  match goal with |- context [all_map ?f (map fst (storage w)) e ?w0] =>
    pose proof (sweep_all (fun n => negb (String.eqb n V2.CACHE_NAME))
                  "Service Worker: Deleting old cache" (map fst (storage w)) e w0) as X;
    destruct (all_map f (map fst (storage w)) e w0) as [r w1] eqn:E end.
  destruct X as [S _]. cbn [storage snd] in S.
  assert (S1 : storage w1 =
               List.filter (fun nc => String.eqb (fst nc) V2.CACHE_NAME) (storage w)).
  { rewrite S. apply filter_ext_in. intros nc Hin.
    rewrite existsb_name by (apply in_map, Hin). apply negb_involutive. }
  clear S E.
  destruct r; cbn -[sweep];
    match goal with |- context [all_map ?f (map fst (storage w)) e ?w0] =>
      pose proof (sweep_all (fun n => startsWith n "raj-app-" && negb (String.eqb n V2.CACHE_NAME))
                    "Service Worker: Removing old cache:" (map fst (storage w)) e w0) as X;
      destruct (all_map f (map fst (storage w)) e w0) as [r' w2] eqn:E end;
    destruct X as [S _]; cbn [storage snd] in S;
    (destruct r'; cbn [snd]; rewrite S, S1, filter_filter; apply filter_ext_in; intros nc Hin;
     rewrite existsb_name by (apply in_map, Hin);
     destruct (String.eqb (fst nc) V2.CACHE_NAME); rewrite ?andb_false_r; reflexivity).
Qed.

(** * Properties of the workers *)

(** ** C1 *)

Lemma lookup_after_put_other name key d (w : World) t l n k :
  n <> name \/ k <> key ->
  lookup_store n k
    (mkWorld (update_cache name (fun c => <[ key := d ]> c) (opened name (storage w))) l t)
  = lookup_store n k w.
Proof.
  intros H. unfold lookup_store. simpl.
  destruct (decide (n = name)) as [->|Hn].
  - destruct H as [H|H]; [congruence|].
    rewrite find_cache_put, lookup_insert_ne by congruence.
    destruct (find_cache name (storage w)); [reflexivity | apply lookup_empty].
  - rewrite find_cache_put_other by exact Hn. reflexivity.
Qed.




(** ** C2 *)




(** Two more requests without a 503: a Firebase SDK file that is not
    stored is answered with the rejection of the fetch, and the v1 listener
    answers an app request with no response. *)
Lemma offline_sdk_rejected :
  mode sdk_request <> Navigate /\
  match_all (href (url sdk_request)) (storage empty_world) = None /\
  net offline (href (url sdk_request)) = None /\
  fst (V2.fetch_listener sdk_request offline empty_world) = RespondWith (Rejected FetchFailed).
Proof. split; [discriminate|]. repeat split. Qed.

Lemma offline_v1_undefined :
  mode app_request <> Navigate /\
  match_all (href (url app_request)) (storage empty_world) = None /\
  net offline (href (url app_request)) = None /\
  fst (V1.fetch_listener app_request offline empty_world) = RespondWith (Fulfilled None).
Proof. split; [discriminate|]. repeat split. Qed.

(** ** C3 *)

Lemma failing_fetch_not_ok (e : Env) (keys : list string) (k : string) :
  In k keys -> net e k = None -> answers_ok e keys = false.
Proof.
  intros Hin Hk. destruct (answers_ok e keys) eqn:E; [|reflexivity].
  unfold answers_ok in E. rewrite forallb_forall in E. specialize (E k Hin).
  rewrite Hk in E. discriminate.
Qed.

(** C3, as the code has it. When one fetch of the manifest fails while
    seeding, nothing of the manifest is stored (every store holds what it
    held, the current store being created empty if it was missing), the
    failure goes to the console, "Installation complete" is not reached and
    skip-waiting is not requested; the rejection is caught, so the promise
    given to [event.waitUntil] is fulfilled. *)
Theorem seed_failure_logged_and_swallowed (v : Worker) (e : Env) (w : World) :
  (exists u, In u (manifest_of v) /\ net e (resolve_url e u) = None) ->
  let s := fst (install_listener_of v e w) in
  let w' := snd (install_listener_of v e w) in
  s = Fulfilled tt /\
  storage w' = opened (cache_name_of v) (storage w) /\
  (forall name key, lookup_store name key w' = lookup_store name key w) /\
  (exists lvl, In (Console lvl ["Service Worker: Cache failed"; error_name AddAllFailed])
                  (effects_since w w')) /\
  ~ In SkipWaiting (effects_since w w') /\
  ~ In (Console LLog ["Service Worker: Installation complete"]) (effects_since w w').
Proof.
  intros [u [Hin Hu]].
  assert (Hbad : answers_ok e (keys_of e (manifest_of v)) = false).
  { apply (failing_fetch_not_ok e _ (resolve_url e u)); [|exact Hu].
    unfold keys_of. apply in_map, Hin. }
  destruct v; simpl install_listener_of; simpl cache_name_of; cbv zeta.
  - change (answers_ok e (keys_of e V2.urlsToCache) = false) in Hbad.
    rewrite (V2_install_fails _ _ Hbad). simpl fst; simpl snd.
    erewrite effects_since_app by reflexivity.
    split; [reflexivity|]. split; [reflexivity|]. split; [intros; apply lookup_opened|].
    split; [exists LError; simpl; repeat (first [left; reflexivity | right])|].
    split; simpl; intros H; repeat (destruct H as [H|H]; [discriminate|]); exact H.
  - change (answers_ok e (keys_of e V1.urlsToCache) = false) in Hbad.
    rewrite (V1_install_fails _ _ Hbad). simpl fst; simpl snd.
    erewrite effects_since_app by reflexivity.
    split; [reflexivity|]. split; [reflexivity|]. split; [intros; apply lookup_opened|].
    split; [exists LLog; simpl; repeat (first [left; reflexivity | right])|].
    split; simpl; intros H; repeat (destruct H as [H|H]; [discriminate|]); exact H.
Qed.

Lemma seed_failure_logged_and_swallowed_witness :
  (exists u, In u (manifest_of Enhanced) /\ net offline (resolve_url offline u) = None) /\
  fst (install_listener_of Enhanced offline empty_world) = Fulfilled tt /\
  storage (snd (install_listener_of Enhanced offline empty_world)) =
    opened (cache_name_of Enhanced) (storage empty_world) /\
  (forall name key,
     lookup_store name key (snd (install_listener_of Enhanced offline empty_world)) =
     lookup_store name key empty_world) /\
  (exists lvl, In (Console lvl ["Service Worker: Cache failed"; error_name AddAllFailed])
                  (effects_since empty_world
                     (snd (install_listener_of Enhanced offline empty_world)))) /\
  ~ In SkipWaiting
      (effects_since empty_world (snd (install_listener_of Enhanced offline empty_world))) /\
  ~ In (Console LLog ["Service Worker: Installation complete"])
      (effects_since empty_world (snd (install_listener_of Enhanced offline empty_world))).
Proof.
  assert (H : exists u, In u (manifest_of Enhanced) /\
                        net offline (resolve_url offline u) = None).
  { exists (String.append V2.BASE_PATH "/index.html"). split; [simpl; tauto | reflexivity]. }
  split; [exact H|].
  exact (seed_failure_logged_and_swallowed Enhanced offline empty_world H).
Defined.

(** With no connectivity the promise given to [event.waitUntil] is
    fulfilled all the same: the install is not aborted. *)
Lemma seed_failure_install_fulfils :
  (exists u, In u V2.urlsToCache /\ net offline (resolve_url offline u) = None) /\
  fst (V2.install_listener offline empty_world) = Fulfilled tt /\
  ~ (exists err, fst (V2.install_listener offline empty_world) = Rejected err).
Proof.
  split.
  - exists (String.append V2.BASE_PATH "/index.html"). split; [simpl; tauto | reflexivity].
  - split; [reflexivity|]. intros [err H]. vm_compute in H. discriminate H.
Qed.

(** ** C4 *)

Lemma filter_names (name : string) (s : list (string * gmap string ResponseData)) (n : string) :
  In n (map fst (List.filter (fun nc => String.eqb (fst nc) name) s)) <->
  In n (map fst s) /\ n = name.
Proof.
  rewrite !in_map_iff. split.
  - intros [nc [<- H]]. apply filter_In in H as [H1 H2]. apply String.eqb_eq in H2.
    split; [exists nc; auto | exact H2].
  - intros [[nc [<- H]] E]. exists nc. split; [reflexivity|].
    apply filter_In. split; [exact H|]. apply String.eqb_eq, E.
Qed.

Lemma find_cache_filter (name : string) (s : list (string * gmap string ResponseData)) :
  find_cache name (List.filter (fun nc => String.eqb (fst nc) name) s) = find_cache name s.
Proof.
  induction s as [|[m c] s IH]; simpl; [reflexivity|].
  destruct (String.eqb m name) eqn:E; simpl; [rewrite E; reflexivity | exact IH].
Qed.

Lemma filter_names_nodup (name : string) (s : list (string * gmap string ResponseData)) :
  List.NoDup (map fst s) -> In name (map fst s) ->
  map fst (List.filter (fun nc => String.eqb (fst nc) name) s) = [name].
Proof.
  induction s as [|[m c] s IH]; simpl; intros Hnd Hin; [contradiction|].
  inversion Hnd as [|? ? Hm Hnd']; subst.
  destruct (String.eqb m name) eqn:E; simpl.
  - apply String.eqb_eq in E. subst m. f_equal.
    destruct (map fst (List.filter _ s)) as [|n l] eqn:F; [reflexivity|].
    exfalso.
    assert (X : In n (map fst (List.filter (fun nc => String.eqb (fst nc) name) s)))
      by (rewrite F; left; reflexivity).
    apply filter_names in X as [X ->]. contradiction.
  - destruct Hin as [->|Hin]; [rewrite String.eqb_refl in E; discriminate|].
    apply IH; assumption.
Qed.

Lemma filter_all_in {A} (f : A -> bool) (l : list A) :
  (forall x, In x l -> f x = true) -> List.filter f l = l.
Proof.
  induction l as [|x l IH]; simpl; intros H; [reflexivity|].
  rewrite (H x (or_introl eq_refl)), IH; [reflexivity|]. intros y Hy. apply H. right. exact Hy.
Qed.

(** C4. Activation, all activate listeners of the worker together, leaves
    exactly the stores named by the current version tag, with what they
    held: every store of another name is deleted, so the enumeration of
    the stores holds the current tag only (and is the one name when the
    current store was there and store names are distinct); activation of a
    storage without stale stores changes no store. *)
Theorem activation_retires_stale_stores (v : Worker) (e : Env) (w : World) :
  let w' := snd (activate_of v e w) in
  storage w' = List.filter (fun nc => String.eqb (fst nc) (cache_name_of v)) (storage w) /\
  (forall n, In n (store_names w') -> n = cache_name_of v) /\
  (forall n, In n (store_names w) -> n <> cache_name_of v -> ~ In n (store_names w')) /\
  (forall key, lookup_store (cache_name_of v) key w' = lookup_store (cache_name_of v) key w) /\
  (List.NoDup (store_names w) -> In (cache_name_of v) (store_names w) ->
   store_names w' = [cache_name_of v]) /\
  ((forall n, In n (store_names w) -> n = cache_name_of v) -> storage w' = storage w).
Proof.
  cbv zeta. destruct (activate_storage v e w) as [S _].
  unfold store_names, lookup_store. rewrite S.
  split; [reflexivity|].
  split; [intros n H; apply filter_names in H; tauto|].
  split; [intros n _ Hne H; apply filter_names in H; tauto|].
  split; [intros key; rewrite find_cache_filter; reflexivity|].
  split; [apply filter_names_nodup|].
  intros H. apply filter_all_in. intros [n c] Hin.
  apply String.eqb_eq, H, in_map_iff. exists (n, c). split; [reflexivity | exact Hin].
Qed.

Lemma activation_retires_stale_stores_witness :
  List.NoDup (store_names two_generations) /\
  In (cache_name_of Enhanced) (store_names two_generations) /\
  store_names (snd (activate_of Enhanced online two_generations)) = ["raj-app-v2"].
Proof.
  assert (Hnd : List.NoDup (store_names two_generations)).
  { unfold store_names. simpl. repeat constructor; simpl; intuition discriminate. }
  assert (Hin : In (cache_name_of Enhanced) (store_names two_generations))
    by (simpl; tauto).
  split; [exact Hnd|]. split; [exact Hin|].
  exact (proj1 (proj2 (proj2 (proj2 (proj2
           (activation_retires_stale_stores Enhanced online two_generations))))) Hnd Hin).
Defined.

(** ** C5 *)

(** C5. A request the worker takes for an excluded one is not intercepted:
    the listener returns without answering and without any effect. The one
    exception is in the v2 worker, for a host containing gstatic.com with
    a path containing firebase: that request is answered cache-first, from
    the store on a hit and without the network, from the network on a miss
    (a network failure rejects the answer). *)
Theorem excluded_host_policy (v : Worker) (e : Env) (w : World) (request : Request) :
  excluded_by v request = true ->
  let key := href (url request) in
  let a := fst (fetch_listener_of v request e w) in
  let w' := snd (fetch_listener_of v request e w) in
  match v with
  | Enhanced =>
      if V2.sdk_asset (url request) then
        head (effects_since w w') = Some (CacheMatch key) /\
        match match_all key (storage w) with
        | Some d =>
            (exists r, a = RespondWith (Fulfilled (Some r)) /\ data r = d) /\
            existsb touches_network (effects_since w w') = false
        | None =>
            In (NetFetch key) (effects_since w w') /\
            match net e key with
            | Some d => exists r, a = RespondWith (Fulfilled (Some r)) /\ data r = d
            | None => a = RespondWith (Rejected FetchFailed)
            end
        end
      else a = Passthrough /\ w' = w
  | Earlier => a = Passthrough /\ w' = w
  end.
Proof.
  intros Hx. cbv zeta. destruct v; simpl in Hx; simpl fetch_listener_of.
  - destruct (V2.sdk_asset (url request)) eqn:Hs.
    + rewrite (V2_fetch_sdk _ _ _ Hx Hs).
      destruct (match_all (href (url request)) (storage w)) as [d|] eqn:Hm.
      * rewrite (V2_sdk_hit _ _ _ _ Hm). simpl fst; simpl snd.
        erewrite effects_since_app by reflexivity.
        split; [reflexivity|]. split; [eauto | reflexivity].
      * destruct (net e (href (url request))) as [d|] eqn:Hn.
        -- rewrite (V2_sdk_miss_online _ _ _ _ Hm Hn). simpl fst; simpl snd.
           erewrite effects_since_app by reflexivity.
           split; [reflexivity|]. split; [simpl; tauto | eauto].
        -- rewrite (V2_sdk_miss_offline _ _ _ Hm Hn). simpl fst; simpl snd.
           erewrite effects_since_app by reflexivity.
           split; [reflexivity|]. split; [simpl; tauto | reflexivity].
    + rewrite (V2_fetch_passthrough _ _ _ Hx Hs). split; reflexivity.
  - rewrite (V1_fetch_passthrough _ _ _ Hx). split; reflexivity.
Qed.

Lemma excluded_host_policy_witness :
  (excluded_by Enhanced firestore_request = true /\
   fst (V2.fetch_listener firestore_request online empty_world) = Passthrough /\
   snd (V2.fetch_listener firestore_request online empty_world) = empty_world) /\
  (excluded_by Earlier firestore_request = true /\
   fst (V1.fetch_listener firestore_request online empty_world) = Passthrough /\
   snd (V1.fetch_listener firestore_request online empty_world) = empty_world) /\
  (excluded_by Enhanced sdk_request = true /\
   head (effects_since empty_world (snd (V2.fetch_listener sdk_request online empty_world)))
   = Some (CacheMatch (href (url sdk_request))) /\
   In (NetFetch (href (url sdk_request)))
     (effects_since empty_world (snd (V2.fetch_listener sdk_request online empty_world))) /\
   exists r, fst (V2.fetch_listener sdk_request online empty_world)
             = RespondWith (Fulfilled (Some r)) /\
             data r = page "content of https://www.gstatic.com/firebasejs/9.23.0/firebase-app-compat.js").
Proof.
  split; [|split]; (split; [reflexivity|]).
  - exact (excluded_host_policy Enhanced online empty_world firestore_request eq_refl).
  - exact (excluded_host_policy Earlier online empty_world firestore_request eq_refl).
  - exact (excluded_host_policy Enhanced online empty_world sdk_request eq_refl).
Defined.

(** ** C6 *)

(** C6, as the code has it. For a request the worker takes for an excluded
    one the fetch listener writes no store. Apart from the Firebase SDK
    files of the v2 worker it reads none either and has no effect at all:
    the request is left to the network as it is. For the SDK files the v2
    listener reads the stores, and on a miss passes the same request to
    the network. *)
Theorem excluded_host_frame (v : Worker) (e : Env) (w : World) (request : Request) :
  excluded_by v request = true ->
  let key := href (url request) in
  let a := fst (fetch_listener_of v request e w) in
  let w' := snd (fetch_listener_of v request e w) in
  storage w' = storage w /\
  existsb writes_store (effects_since w w') = false /\
  match v with
  | Enhanced =>
      if V2.sdk_asset (url request) then
        effects_since w w' = [CacheMatch key] \/
        effects_since w w' = [CacheMatch key; NetFetch key]
      else a = Passthrough /\ w' = w
  | Earlier => a = Passthrough /\ w' = w
  end.
Proof.
  intros Hx. cbv zeta.
  assert (Hnil : effects_since w w = []) by (unfold effects_since; apply drop_all).
  destruct v; simpl in Hx; simpl fetch_listener_of.
  - destruct (V2.sdk_asset (url request)) eqn:Hs.
    + rewrite (V2_fetch_sdk _ _ _ Hx Hs).
      destruct (match_all (href (url request)) (storage w)) as [d|] eqn:Hm.
      * rewrite (V2_sdk_hit _ _ _ _ Hm). simpl fst; simpl snd.
        erewrite effects_since_app by reflexivity. repeat split. left. reflexivity.
      * destruct (net e (href (url request))) as [d|] eqn:Hn.
        -- rewrite (V2_sdk_miss_online _ _ _ _ Hm Hn). simpl fst; simpl snd.
           erewrite effects_since_app by reflexivity. repeat split. right. reflexivity.
        -- rewrite (V2_sdk_miss_offline _ _ _ Hm Hn). simpl fst; simpl snd.
           erewrite effects_since_app by reflexivity. repeat split. right. reflexivity.
    + rewrite (V2_fetch_passthrough _ _ _ Hx Hs). simpl fst; simpl snd.
      rewrite Hnil. repeat split.
  - rewrite (V1_fetch_passthrough _ _ _ Hx). simpl fst; simpl snd.
    rewrite Hnil. repeat split.
Qed.

Lemma excluded_host_frame_witness :
  excluded_by Enhanced sdk_request = true /\
  storage (snd (V2.fetch_listener sdk_request online two_generations)) =
    storage two_generations /\
  existsb writes_store
    (effects_since two_generations (snd (V2.fetch_listener sdk_request online two_generations)))
  = false /\
  (effects_since two_generations (snd (V2.fetch_listener sdk_request online two_generations))
   = [CacheMatch (href (url sdk_request))] \/
   effects_since two_generations (snd (V2.fetch_listener sdk_request online two_generations))
   = [CacheMatch (href (url sdk_request)); NetFetch (href (url sdk_request))]).
Proof.
  split; [reflexivity|].
  exact (excluded_host_frame Enhanced online two_generations sdk_request eq_refl).
Defined.

(** A request for a Firebase SDK file is an excluded-host request, and the
    listener reads the stores for it. *)
Lemma sdk_request_reads_store :
  excluded_by Enhanced sdk_request = true /\
  existsb reads_store
    (effects_since empty_world (snd (V2.fetch_listener sdk_request online empty_world)))
  = true.
Proof. split; reflexivity. Qed.

(** ** C7 *)

Lemma lookup_store_match_all (name key : string) (w : World) (d : ResponseData) :
  lookup_store name key w = Some d -> is_Some (match_all key (storage w)).
Proof.
  unfold lookup_store. induction (storage w) as [|[n c] s IH]; simpl; [discriminate|].
  destruct (c !! key) eqn:E; [eauto|].
  destruct (String.eqb n name); [congruence | exact IH].
Qed.




(** ** C8 *)

Lemma answers_ok_all (e : Env) (urls : list string) :
  (forall u, In u urls -> exists d, net e (resolve_url e u) = Some d /\ addable d = true) ->
  answers_ok e (keys_of e urls) = true.
Proof.
  intros H. unfold answers_ok, keys_of. apply forallb_forall. intros k Hk.
  apply in_map_iff in Hk as [u [<- Hu]]. destruct (H u Hu) as [d [-> Hd]]. exact Hd.
Qed.

Lemma seeded_store (name : string) (e : Env) (urls : list string) l w t u st :
  all_ok (map (fun k => (k, net e k)) (keys_of e urls)) = Some l ->
  In u urls ->
  lookup_store name (resolve_url e u)
    (mkWorld (update_cache name (put_all l) (opened name (storage w))) st t)
  = net e (resolve_url e u).
Proof.
  intros Hl Hu. unfold lookup_store. simpl. rewrite find_cache_put.
  apply (seeded_lookup e (keys_of e urls)); [exact Hl|].
  unfold keys_of. apply in_map, Hu.
Qed.

(** C8. When the seed succeeds, that is when the network answers every URL
    of the manifest with a response [cache.addAll] accepts (an ok one, not
    partial), the install listener completes (skip-waiting is requested,
    the promise given to [event.waitUntil] is fulfilled) and the current
    store then holds, for every URL of the manifest, the network's answer:
    a lookup in that store, and [caches.match], return a non-absent
    entry. *)
Theorem seed_then_lookup (v : Worker) (e : Env) (w : World) :
  (forall u, In u (manifest_of v) ->
             exists d, net e (resolve_url e u) = Some d /\ addable d = true) ->
  let s := fst (install_listener_of v e w) in
  let w' := snd (install_listener_of v e w) in
  s = Fulfilled tt /\
  In SkipWaiting (effects_since w w') /\
  forall u, In u (manifest_of v) ->
    lookup_store (cache_name_of v) (resolve_url e u) w' = net e (resolve_url e u) /\
    is_Some (lookup_store (cache_name_of v) (resolve_url e u) w') /\
    is_Some (match_all (resolve_url e u) (storage w')).
Proof.
  intros Hall. pose proof (answers_ok_all e _ Hall) as Hok. cbv zeta.
  assert (Hfin : forall w' : World,
             (forall u, In u (manifest_of v) ->
                lookup_store (cache_name_of v) (resolve_url e u) w' = net e (resolve_url e u)) ->
             forall u, In u (manifest_of v) ->
                lookup_store (cache_name_of v) (resolve_url e u) w' = net e (resolve_url e u) /\
                is_Some (lookup_store (cache_name_of v) (resolve_url e u) w') /\
                is_Some (match_all (resolve_url e u) (storage w'))).
  { intros w' H u Hu. specialize (H u Hu). destruct (Hall u Hu) as [d [Hd _]].
    rewrite Hd in H. split; [congruence|]. split; [rewrite H; eauto|].
    apply (lookup_store_match_all _ _ _ _ H). }
  destruct v; simpl install_listener_of.
  - destruct (V2_install_succeeds e w Hok) as [l [Hl Hrun]]. rewrite Hrun.
    simpl fst; simpl snd. erewrite effects_since_app by reflexivity.
    split; [reflexivity|].
    split; [simpl; repeat (first [left; reflexivity | right])|].
    apply Hfin. intros u Hu. apply (seeded_store _ _ _ _ _ _ _ _ Hl Hu).
  - destruct (V1_install_succeeds e w Hok) as [l [Hl Hrun]]. rewrite Hrun.
    simpl fst; simpl snd. erewrite effects_since_app by reflexivity.
    split; [reflexivity|].
    split; [simpl; repeat (first [left; reflexivity | right])|].
    apply Hfin. intros u Hu. apply (seeded_store _ _ _ _ _ _ _ _ Hl Hu).
Qed.

Lemma seed_then_lookup_witness :
  (forall u, In u (manifest_of Enhanced) ->
             exists d, net online (resolve_url online u) = Some d /\ addable d = true) /\
  fst (install_listener_of Enhanced online empty_world) = Fulfilled tt /\
  In SkipWaiting
    (effects_since empty_world (snd (install_listener_of Enhanced online empty_world))) /\
  forall u, In u (manifest_of Enhanced) ->
    lookup_store (cache_name_of Enhanced) (resolve_url online u)
      (snd (install_listener_of Enhanced online empty_world))
    = net online (resolve_url online u) /\
    is_Some (lookup_store (cache_name_of Enhanced) (resolve_url online u)
               (snd (install_listener_of Enhanced online empty_world))) /\
    is_Some (match_all (resolve_url online u)
               (storage (snd (install_listener_of Enhanced online empty_world)))).
Proof.
  split; [intros u _; eexists; split; reflexivity|].
  apply (seed_then_lookup Enhanced online empty_world).
  intros u _. eexists. split; reflexivity.
Defined.

(** ** C10 *)

(** C10. In the v2 fallback for a navigation the two lookups are joined
    with [||], and the first operand is a promise: after the failure is
    logged the only store lookup is the one for [/raj-app/index.html], the
    answer is whatever that lookup gives, and when the main page is not
    stored the answer is undefined, whether the root document
    [/raj-app/] is stored or not. *)
Theorem navigation_fallback_index_only (e : Env) (w : World) (request : Request) :
  V2.excluded_host (url request) = false ->
  mode request = Navigate ->
  match_all (href (url request)) (storage w) = None ->
  net e (href (url request)) = None ->
  let key := href (url request) in
  let index := resolve_url e (String.append V2.BASE_PATH "/index.html") in
  let a := fst (V2.fetch_listener request e w) in
  let w' := snd (V2.fetch_listener request e w) in
  (exists s, a = RespondWith (Fulfilled s) /\ option_map data s = match_all index (storage w)) /\
  effects_since w w' =
    [CacheMatch key;
     Console LLog ["Service Worker: Fetching from network:"; key];
     NetFetch key;
     Console LError ["Service Worker: Fetch failed for"; key; error_name FetchFailed];
     CacheMatch index] /\
  (match_all index (storage w) = None -> a = RespondWith (Fulfilled None)).
Proof.
  intros Hx Hmode Hm Hn. cbv zeta.
  rewrite (V2_fetch_app _ _ _ Hx), (V2_app_offline_navigate _ _ _ Hm Hn Hmode). cbv zeta.
  destruct (match_all (resolve_url e _) (storage w)) as [d|]; simpl fst; simpl snd;
    (erewrite effects_since_app by reflexivity).
  - split; [eexists; split; reflexivity|]. split; [reflexivity | discriminate].
  - split; [eexists; split; reflexivity|]. split; reflexivity.
Qed.

Lemma navigation_fallback_index_only_witness :
  V2.excluded_host (url orders_navigation) = false /\
  mode orders_navigation = Navigate /\
  match_all (href (url orders_navigation)) (storage root_only) = None /\
  net offline (href (url orders_navigation)) = None /\
  match_all (resolve_url offline (String.append V2.BASE_PATH "/")) (storage root_only)
  = Some (page "root") /\
  match_all (resolve_url offline (String.append V2.BASE_PATH "/index.html")) (storage root_only)
  = None /\
  fst (V2.fetch_listener orders_navigation offline root_only) = RespondWith (Fulfilled None).
Proof.
  repeat (split; [reflexivity|]).
  apply (navigation_fallback_index_only offline root_only orders_navigation);
    reflexivity.
Defined.

(** ** C9 *)

(** C9, as the code has it. The v2 listener decides by substring
    containment on the hostname: a request is excluded exactly when its
    hostname contains googleapis.com or gstatic.com somewhere, and an
    excluded request does not reach the app-request path (it is passed
    through, or answered by the SDK lookup). The v1 listener decides by
    substring containment on the whole URL, and for googleapis.com only: a
    request is excluded exactly when its URL contains googleapis.com, which
    it does when its hostname does, and is then passed through. *)
Theorem excluded_by_substring (e : Env) (w : World) (request : Request) :
  V2.excluded_host (url request) =
    includes (hostname (url request)) "googleapis.com" ||
    includes (hostname (url request)) "gstatic.com" /\
  (V2.excluded_host (url request) = true ->
   V2.fetch_listener request e w =
   (if V2.sdk_asset (url request)
    then s <- V2.sdk_cache_first request ;; ret (RespondWith s)
    else ret Passthrough) e w) /\
  V1.excluded_url request = includes (href (url request)) "googleapis.com" /\
  (includes (hostname (url request)) "googleapis.com" = true ->
   V1.excluded_url request = true) /\
  (V1.excluded_url request = true -> V1.fetch_listener request e w = (Passthrough, w)).
Proof.
  split; [apply V2_excluded_host_spec|].
  split; [intros H; unfold V2.fetch_listener; rewrite H; reflexivity|].
  split; [apply V1_excluded_url_spec|].
  split; [intros H; rewrite V1_excluded_url_spec; apply includes_href, H|].
  apply V1_fetch_passthrough.
Qed.

Lemma excluded_by_substring_witness :
  includes (hostname (url lookalike_request)) "gstatic.com" = true /\
  V2.excluded_host (url lookalike_request) = true /\
  V2.fetch_listener lookalike_request online empty_world = (Passthrough, empty_world).
Proof.
  split; [reflexivity|]. split; [reflexivity|].
  exact (proj1 (proj2 (excluded_by_substring online empty_world lookalike_request)) eq_refl).
Defined.

(** The v1 listener takes a request to a host containing gstatic.com for
    an app request: it answers it cache-first and stores the answer. *)
Lemma v1_gstatic_host_not_excluded :
  includes (hostname (url lookalike_request)) "gstatic.com" = true /\
  V1.excluded_url lookalike_request = false /\
  fst (V1.fetch_listener lookalike_request online empty_world) <> Passthrough /\
  entries_for (href (url lookalike_request))
    (snd (V1.fetch_listener lookalike_request online empty_world)) = 1%nat.
Proof.
  split; [reflexivity|]. split; [reflexivity|]. split; [|reflexivity].
  vm_compute. discriminate.
Qed.

(** * More of the workers *)

(** ** What the fetch listeners leave behind *)


Lemma names_update_cache (name : string) f s :
  map fst (update_cache name f s) = map fst s.
Proof.
  induction s as [|[n c] s IH]; simpl; [reflexivity|].
  destruct (String.eqb n name); simpl; [reflexivity | rewrite IH; reflexivity].
Qed.

Lemma find_cache_None_names (name : string) s :
  find_cache name s = None -> ~ In name (map fst s).
Proof.
  induction s as [|[n c] s IH]; simpl; [tauto|].
  destruct (String.eqb n name) eqn:N; [discriminate|].
  intros H [X|X]; [subst; rewrite String.eqb_refl in N; discriminate | exact (IH H X)].
Qed.

Lemma names_opened (name : string) s :
  map fst (opened name s) = map fst s \/
  (~ In name (map fst s) /\ map fst (opened name s) = map fst s ++ [name]).
Proof.
  unfold opened. destruct (find_cache name s) eqn:F; [left; reflexivity|].
  right. split; [apply find_cache_None_names, F|]. rewrite map_app. reflexivity.
Qed.

(** The world a fetch listener leaves: streams and trace grow, and the
    storage is the one it found, or that one with a cacheable answer put
    into the opened current store after a miss. *)
Lemma fetch_world_cases (v : Worker) e w request :
  let w' := snd (fetch_listener_of v request e w) in
  (exists fresh, streams w' = streams w ++ fresh) /\
  (exists t, trace w' = trace w ++ t) /\
  (storage w' = storage w \/
   (excluded_by v request = false /\
    match_all (href (url request)) (storage w) = None /\
    exists d, net e (href (url request)) = Some d /\ cacheable d = true /\
              storage w' =
              update_cache (cache_name_of v) (fun c => <[ href (url request) := d ]> c)
                (opened (cache_name_of v) (storage w)))).
Proof.
  cbv zeta.
  assert (Same : forall x : World,
            (exists fresh, streams x = streams w ++ fresh) ->
            (exists t, trace x = trace w ++ t) ->
            storage x = storage w ->
            (exists fresh, streams x = streams w ++ fresh) /\
            (exists t, trace x = trace w ++ t) /\
            (storage x = storage w \/
             (excluded_by v request = false /\
              match_all (href (url request)) (storage w) = None /\
              exists d, net e (href (url request)) = Some d /\ cacheable d = true /\
                storage x =
                update_cache (cache_name_of v) (fun c => <[ href (url request) := d ]> c)
                  (opened (cache_name_of v) (storage w))))) by (intros; tauto).
  destruct (excluded_by v request) eqn:Hx.
  - destruct v; simpl in Hx; simpl fetch_listener_of.
    + destruct (V2.sdk_asset (url request)) eqn:Hs.
      * rewrite (V2_fetch_sdk _ _ _ Hx Hs).
        destruct (match_all (href (url request)) (storage w)) as [d|] eqn:Hm.
        -- rewrite (V2_sdk_hit _ _ _ _ Hm). apply Same; simpl; eauto.
        -- destruct (net e (href (url request))) as [d|] eqn:Hn.
           ++ rewrite (V2_sdk_miss_online _ _ _ _ Hm Hn). apply Same; simpl; eauto.
           ++ rewrite (V2_sdk_miss_offline _ _ _ Hm Hn).
              apply Same; simpl; eauto. exists []. rewrite app_nil_r. reflexivity.
      * rewrite (V2_fetch_passthrough _ _ _ Hx Hs).
        apply Same; simpl; [exists [] | exists [] | reflexivity]; rewrite app_nil_r; reflexivity.
    + rewrite (V1_fetch_passthrough _ _ _ Hx).
      apply Same; simpl; [exists [] | exists [] | reflexivity]; rewrite app_nil_r; reflexivity.
  - destruct v; simpl in Hx; simpl fetch_listener_of; simpl cache_name_of.
    + rewrite (V2_fetch_app _ _ _ Hx). simpl snd.
      destruct (match_all (href (url request)) (storage w)) as [d|] eqn:Hm.
      * rewrite (V2_app_hit _ _ _ _ Hm). apply Same; simpl; eauto.
      * destruct (net e (href (url request))) as [d|] eqn:Hn.
        -- destruct (cacheable d) eqn:Hc.
           ++ rewrite (V2_app_miss_cacheable _ _ _ _ Hm Hn Hc). simpl.
              split; [eauto|]. split; [eauto|]. right. eauto 10.
           ++ rewrite (V2_app_miss_uncacheable _ _ _ _ Hm Hn Hc). apply Same; simpl; eauto.
        -- destruct (decide (mode request = Navigate)) as [Hmode|Hmode].
           ++ rewrite (V2_app_offline_navigate _ _ _ Hm Hn Hmode). cbv zeta.
              destruct (match_all (resolve_url e _) (storage w)); apply Same; simpl; eauto.
              exists []. rewrite app_nil_r. reflexivity.
           ++ rewrite (V2_app_offline_other _ _ _ Hm Hn Hmode). apply Same; simpl; eauto.
    + rewrite (V1_fetch_app _ _ _ Hx). simpl snd.
      destruct (match_all (href (url request)) (storage w)) as [d|] eqn:Hm.
      * rewrite (V1_app_hit _ _ _ _ Hm). apply Same; simpl; eauto.
      * destruct (net e (href (url request))) as [d|] eqn:Hn.
        -- destruct (cacheable d) eqn:Hc.
           ++ rewrite (V1_app_miss_cacheable _ _ _ _ Hm Hn Hc). simpl.
              split; [eauto|]. split; [eauto|]. right. eauto 10.
           ++ rewrite (V1_app_miss_uncacheable _ _ _ _ Hm Hn Hc). apply Same; simpl; eauto.
        -- rewrite (V1_app_offline _ _ _ Hm Hn). apply Same; simpl; eauto.
           exists []. rewrite app_nil_r. reflexivity.
Qed.

(** X1. Whatever the request, a fetch listener keeps every entry of every
    store as it is, leaves the body streams handed out before unread, and
    deletes no store: the store names are those it found, with at most the
    current one added at the end. *)
Theorem fetch_listener_keeps_what_is_there (v : Worker) (e : Env) (w : World)
    (request : Request) :
  let w' := snd (fetch_listener_of v request e w) in
  (forall name key d, lookup_store name key w = Some d -> lookup_store name key w' = Some d) /\
  (forall i, (i < length (streams w))%nat -> readable w' i = readable w i) /\
  (store_names w' = store_names w \/ store_names w' = store_names w ++ [cache_name_of v]).
Proof.
  cbv zeta. destruct (fetch_world_cases v e w request) as [[fresh Hs] [_ Hst]].
  cbv zeta in Hs, Hst.
  split; [|split].
  - intros name key d H. destruct Hst as [E | [_ [Hm [d' [_ [_ E]]]]]].
    + unfold lookup_store in *. rewrite E. exact H.
    + destruct (snd (fetch_listener_of v request e w)) as [s l t]. simpl in E. subst s.
      rewrite lookup_after_put_other; [exact H|].
      destruct (decide (name = cache_name_of v)) as [->|]; [|left; assumption].
      right. intros ->.
      destruct (lookup_store_match_all _ _ _ _ H) as [x Hx]. congruence.
  - intros i Hi. unfold readable. rewrite Hs, lookup_app_l by exact Hi. reflexivity.
  - unfold store_names. destruct Hst as [E | [_ [_ [d [_ [_ E]]]]]]; rewrite E.
    + left. reflexivity.
    + rewrite names_update_cache.
      destruct (names_opened (cache_name_of v) (storage w)) as [N | [_ N]]; rewrite N; tauto.
Qed.

Lemma fetch_listener_keeps_what_is_there_witness :
  lookup_store "raj-app-v1" "https://drono-coder.github.io/raj-app/" two_generations
  = Some (page "old") /\
  lookup_store "raj-app-v1" "https://drono-coder.github.io/raj-app/"
    (snd (V2.fetch_listener app_request online two_generations)) = Some (page "old").
Proof.
  split; [reflexivity|].
  apply (proj1 (fetch_listener_keeps_what_is_there Enhanced online two_generations app_request)).
  reflexivity.
Defined.



(** X3. The answer to an app request is never a rejected promise. It is
    undefined in one case per worker: in v2 for a navigation that misses
    the stores, fails on the network and finds no main page stored; in v1
    for any request that misses the stores and fails on the network. *)
Theorem app_answer_never_rejects (v : Worker) (e : Env) (w : World) (request : Request) :
  excluded_by v request = false ->
  exists s,
    fst (fetch_listener_of v request e w) = RespondWith (Fulfilled s) /\
    (s = None <->
     match_all (href (url request)) (storage w) = None /\
     net e (href (url request)) = None /\
     match v with
     | Enhanced =>
         mode request = Navigate /\
         match_all (resolve_url e (String.append V2.BASE_PATH "/index.html")) (storage w) = None
     | Earlier => True
     end).
Proof.
  intros Hx. destruct v; simpl in Hx; simpl fetch_listener_of.
  - rewrite (V2_fetch_app _ _ _ Hx). simpl fst.
    destruct (match_all (href (url request)) (storage w)) as [d|] eqn:Hm.
    + rewrite (V2_app_hit _ _ _ _ Hm). eexists. split; [reflexivity|].
      split; [discriminate | intros [? _]; discriminate].
    + destruct (net e (href (url request))) as [d|] eqn:Hn.
      * destruct (cacheable d) eqn:Hc.
        -- rewrite (V2_app_miss_cacheable _ _ _ _ Hm Hn Hc). eexists. split; [reflexivity|].
           split; [discriminate | intros [_ [? _]]; discriminate].
        -- rewrite (V2_app_miss_uncacheable _ _ _ _ Hm Hn Hc). eexists. split; [reflexivity|].
           split; [discriminate | intros [_ [? _]]; discriminate].
      * destruct (decide (mode request = Navigate)) as [Hmode|Hmode].
        -- rewrite (V2_app_offline_navigate _ _ _ Hm Hn Hmode). cbv zeta.
           destruct (match_all (resolve_url e _) (storage w)) eqn:Hi;
             eexists; (split; [reflexivity|]).
           ++ split; [discriminate | intros [_ [_ [_ ?]]]; discriminate].
           ++ split; [intros _; auto | reflexivity].
        -- rewrite (V2_app_offline_other _ _ _ Hm Hn Hmode). eexists. split; [reflexivity|].
           split; [discriminate | intros [_ [_ [? _]]]; contradiction].
  - rewrite (V1_fetch_app _ _ _ Hx). simpl fst.
    destruct (match_all (href (url request)) (storage w)) as [d|] eqn:Hm.
    + rewrite (V1_app_hit _ _ _ _ Hm). eexists. split; [reflexivity|].
      split; [discriminate | intros [? _]; discriminate].
    + destruct (net e (href (url request))) as [d|] eqn:Hn.
      * destruct (cacheable d) eqn:Hc.
        -- rewrite (V1_app_miss_cacheable _ _ _ _ Hm Hn Hc). eexists. split; [reflexivity|].
           split; [discriminate | intros [_ [? _]]; discriminate].
        -- rewrite (V1_app_miss_uncacheable _ _ _ _ Hm Hn Hc). eexists. split; [reflexivity|].
           split; [discriminate | intros [_ [? _]]; discriminate].
      * rewrite (V1_app_offline _ _ _ Hm Hn). eexists. split; [reflexivity|].
        split; [auto | reflexivity].
Qed.

Lemma app_answer_never_rejects_witness :
  excluded_by Enhanced orders_navigation = false /\
  exists s,
    fst (V2.fetch_listener orders_navigation offline root_only) = RespondWith (Fulfilled s) /\
    (s = None <->
     match_all (href (url orders_navigation)) (storage root_only) = None /\
     net offline (href (url orders_navigation)) = None /\
     mode orders_navigation = Navigate /\
     match_all (resolve_url offline (String.append V2.BASE_PATH "/index.html"))
       (storage root_only) = None).
Proof.
  split; [reflexivity|].
  exact (app_answer_never_rejects Enhanced offline root_only orders_navigation eq_refl).
Defined.

(** ** Store names *)

Lemma NoDup_names_filter (f : string * gmap string ResponseData -> bool) s :
  List.NoDup (map fst s) -> List.NoDup (map fst (List.filter f s)).
Proof.
  induction s as [|[n c] s IH]; simpl; intros H; [constructor|].
  inversion H as [|? ? Hn Hs]; subst.
  destruct (f (n, c)); simpl; [|auto].
  constructor; [|auto]. intros X. apply Hn.
  apply in_map_iff in X as [nc [E X]]. apply filter_In in X as [X _].
  apply in_map_iff. exists nc. auto.
Qed.

Lemma NoDup_names_opened (name : string) s :
  List.NoDup (map fst s) -> List.NoDup (map fst (opened name s)).
Proof.
  intros H. destruct (names_opened name s) as [E | [Hn E]]; rewrite E; [exact H|].
  clear E. induction (map fst s) as [|x l IH]; simpl.
  - constructor; [tauto | constructor].
  - inversion H as [|? ? Hx Hl]; subst. simpl in Hn. constructor.
    + rewrite in_app_iff. simpl. intros [X | [X | []]]; [tauto | subst; tauto].
    + apply IH; [exact Hl | tauto].
Qed.

(** The storage an install listener leaves. *)
Lemma install_storage_cases (v : Worker) e w :
  let w' := snd (install_listener_of v e w) in
  fst (install_listener_of v e w) = Fulfilled tt /\
  streams w' = streams w /\
  if answers_ok e (keys_of e (manifest_of v)) then
    exists l,
      all_ok (map (fun k => (k, net e k)) (keys_of e (manifest_of v))) = Some l /\
      storage w' = update_cache (cache_name_of v) (put_all l)
                     (opened (cache_name_of v) (storage w)) /\
      In SkipWaiting (effects_since w w')
  else
    storage w' = opened (cache_name_of v) (storage w) /\
    ~ In SkipWaiting (effects_since w w').
Proof.
  cbv zeta. destruct (answers_ok e (keys_of e (manifest_of v))) eqn:Hok.
  - destruct v; simpl install_listener_of; simpl cache_name_of.
    + destruct (V2_install_succeeds e w Hok) as [l [Hl Hrun]]. rewrite Hrun.
      simpl fst; simpl snd. erewrite effects_since_app by reflexivity.
      split; [reflexivity|]. split; [reflexivity|]. exists l.
      split; [exact Hl|]. split; [reflexivity|].
      simpl; repeat (first [left; reflexivity | right]).
    + destruct (V1_install_succeeds e w Hok) as [l [Hl Hrun]]. rewrite Hrun.
      simpl fst; simpl snd. erewrite effects_since_app by reflexivity.
      split; [reflexivity|]. split; [reflexivity|]. exists l.
      split; [exact Hl|]. split; [reflexivity|].
      simpl; repeat (first [left; reflexivity | right]).
  - destruct v; simpl install_listener_of; simpl cache_name_of.
    + change (answers_ok e (keys_of e V2.urlsToCache) = false) in Hok.
      rewrite (V2_install_fails _ _ Hok). simpl fst; simpl snd.
      erewrite effects_since_app by reflexivity.
      split; [reflexivity|]. split; [reflexivity|]. split; [reflexivity|].
      simpl; intros H; repeat (destruct H as [H|H]; [discriminate|]); exact H.
    + change (answers_ok e (keys_of e V1.urlsToCache) = false) in Hok.
      rewrite (V1_install_fails _ _ Hok). simpl fst; simpl snd.
      erewrite effects_since_app by reflexivity.
      split; [reflexivity|]. split; [reflexivity|]. split; [reflexivity|].
      simpl; intros H; repeat (destruct H as [H|H]; [discriminate|]); exact H.
Qed.

(** X4. The names of the stores stay distinct: from a storage whose store
    names are distinct, the install listener, the activate listeners and
    the fetch listener, of either worker and on any request, leave a
    storage whose store names are distinct. *)
Theorem store_names_stay_distinct (v : Worker) (e : Env) (w : World) :
  List.NoDup (store_names w) ->
  List.NoDup (store_names (snd (install_listener_of v e w))) /\
  List.NoDup (store_names (snd (activate_of v e w))) /\
  forall request, List.NoDup (store_names (snd (fetch_listener_of v request e w))).
Proof.
  intros H. unfold store_names in *. split; [|split].
  - destruct (install_storage_cases v e w) as [_ [_ C]]. cbv zeta in C.
    destruct (answers_ok e (keys_of e (manifest_of v))).
    + destruct C as [l [_ [E _]]]. rewrite E, names_update_cache.
      apply NoDup_names_opened, H.
    + destruct C as [E _]. rewrite E. apply NoDup_names_opened, H.
  - destruct (activate_storage v e w) as [E _]. rewrite E. apply NoDup_names_filter, H.
  - intros request. destruct (fetch_world_cases v e w request) as [_ [_ C]]. cbv zeta in C.
    destruct C as [E | [_ [_ [d [_ [_ E]]]]]]; rewrite E; [exact H|].
    rewrite names_update_cache. apply NoDup_names_opened, H.
Qed.

Lemma store_names_stay_distinct_witness :
  List.NoDup (store_names two_generations) /\
  List.NoDup (store_names (snd (install_listener_of Enhanced online two_generations))) /\
  List.NoDup (store_names (snd (activate_of Enhanced online two_generations))) /\
  forall request,
    List.NoDup (store_names (snd (fetch_listener_of Enhanced request online two_generations))).
Proof.
  assert (H : List.NoDup (store_names two_generations)).
  { unfold store_names. simpl. repeat constructor; simpl; intuition discriminate. }
  split; [exact H|].
  exact (store_names_stay_distinct Enhanced online two_generations H).
Defined.

(** ** Seeding, again *)

(** X5. The install listener requests skip-waiting exactly when the
    network answers every URL of the manifest with a response that
    [cache.addAll] accepts; an answer such as a 404 for one URL is as good
    as a failed fetch: the store is opened and left as it was. Either way
    the promise given to [event.waitUntil] is fulfilled. *)
Theorem install_completes_iff_all_accepted (v : Worker) (e : Env) (w : World) :
  let w' := snd (install_listener_of v e w) in
  fst (install_listener_of v e w) = Fulfilled tt /\
  (In SkipWaiting (effects_since w w') <->
   forall u, In u (manifest_of v) ->
             exists d, net e (resolve_url e u) = Some d /\ addable d = true) /\
  ((exists u d, In u (manifest_of v) /\ net e (resolve_url e u) = Some d /\ addable d = false) ->
   storage w' = opened (cache_name_of v) (storage w)).
Proof.
  cbv zeta. destruct (install_storage_cases v e w) as [F [_ C]]. cbv zeta in C.
  split; [exact F|].
  destruct (answers_ok e (keys_of e (manifest_of v))) eqn:Hok.
  - destruct C as [l [_ [_ Hs]]].
    assert (All : forall u, In u (manifest_of v) ->
                    exists d, net e (resolve_url e u) = Some d /\ addable d = true).
    { intros u Hu. unfold answers_ok in Hok. rewrite forallb_forall in Hok.
      specialize (Hok (resolve_url e u) (in_map _ _ _ Hu)).
      destruct (net e (resolve_url e u)) as [d|]; [eauto | discriminate]. }
    split; [tauto|]. intros [u [d [Hu [Hd Hbad]]]].
    destruct (All u Hu) as [d' [Hd' Hgood]]. congruence.
  - destruct C as [Hst Hno]. split.
    + split; [tauto|]. intros All. rewrite (answers_ok_all e _ All) in Hok. discriminate.
    + intros _. exact Hst.
Qed.

Lemma install_completes_iff_all_accepted_witness :
  (forall u, In u (manifest_of Earlier) ->
             exists d, net online (resolve_url online u) = Some d /\ addable d = true) /\
  In SkipWaiting
    (effects_since empty_world (snd (install_listener_of Earlier online empty_world))).
Proof.
  assert (H : forall u, In u (manifest_of Earlier) ->
                exists d, net online (resolve_url online u) = Some d /\ addable d = true)
    by (intros u _; eexists; split; reflexivity).
  split; [exact H|].
  exact (proj2 (proj1 (proj2 (install_completes_iff_all_accepted Earlier online empty_world)))
           H).
Defined.

Lemma put_all_other (l : list (string * ResponseData)) (c : gmap string ResponseData)
      (k : string) :
  ~ In k (map fst l) -> put_all l c !! k = c !! k.
Proof.
  revert c; induction l as [|[k0 d0] l IH]; intros c H; [reflexivity|].
  unfold put_all. simpl. fold (put_all l (<[ k0 := d0 ]> c)).
  simpl in H. rewrite IH by tauto. apply lookup_insert_ne. tauto.
Qed.

(** Putting the same answers a second time changes nothing. *)
Lemma put_all_twice (e : Env) (keys : list string) l (c : gmap string ResponseData) :
  all_ok (map (fun k => (k, net e k)) keys) = Some l ->
  put_all l (put_all l c) = put_all l c.
Proof.
  intros H. apply map_eq. intros k.
  destruct (all_ok_sound _ _ H) as [A B].
  destruct (in_dec string_dec k (map fst l)) as [Hin|Hout].
  - assert (Hk : In k keys) by (rewrite A, map_map, map_id in Hin; exact Hin).
    rewrite !(seeded_lookup e keys l _ k H Hk). reflexivity.
  - apply put_all_other, Hout.
Qed.

Lemma update_cache_opened_twice (name : string) f s :
  (forall c, f (f c) = f c) ->
  update_cache name f (opened name (update_cache name f (opened name s))) =
  update_cache name f (opened name s).
Proof.
  intros Hf.
  assert (O : forall s', find_cache name s' <> None -> opened name s' = s').
  { intros s' H. unfold opened. destruct (find_cache name s'); [reflexivity | congruence]. }
  rewrite (O (update_cache name f (opened name s))) by (rewrite find_cache_put; discriminate).
  induction (opened name s) as [|[n c] s' IH]; simpl; [reflexivity|].
  destruct (String.eqb n name) eqn:N; simpl; rewrite N; [rewrite Hf | rewrite IH]; reflexivity.
Qed.

(** X6. Seeding is idempotent: when the network answers the manifest the
    same way, a second run of the install listener leaves the storage the
    first run left. *)
Theorem seed_twice_is_seed_once (v : Worker) (e : Env) (w : World) :
  (forall u, In u (manifest_of v) ->
             exists d, net e (resolve_url e u) = Some d /\ addable d = true) ->
  let w1 := snd (install_listener_of v e w) in
  storage (snd (install_listener_of v e w1)) = storage w1.
Proof.
  intros All. pose proof (answers_ok_all e _ All) as Hok. cbv zeta.
  destruct (install_storage_cases v e w) as [_ [_ C1]].
  destruct (install_storage_cases v e (snd (install_listener_of v e w))) as [_ [_ C2]].
  cbv zeta in C1, C2. rewrite Hok in C1, C2.
  destruct C1 as [l [Hl [E1 _]]]. destruct C2 as [l' [Hl' [E2 _]]].
  assert (l' = l) by congruence. subst l'.
  rewrite E2, E1. apply update_cache_opened_twice.
  intros c. apply (put_all_twice e _ _ _ Hl).
Qed.

Lemma seed_twice_is_seed_once_witness :
  (forall u, In u (manifest_of Enhanced) ->
             exists d, net online (resolve_url online u) = Some d /\ addable d = true) /\
  storage (snd (install_listener_of Enhanced online
                  (snd (install_listener_of Enhanced online two_generations)))) =
  storage (snd (install_listener_of Enhanced online two_generations)).
Proof.
  assert (H : forall u, In u (manifest_of Enhanced) ->
                exists d, net online (resolve_url online u) = Some d /\ addable d = true)
    by (intros u _; eexists; split; reflexivity).
  split; [exact H|].
  exact (seed_twice_is_seed_once Enhanced online two_generations H).
Defined.

(** ** From deploy to offline use *)



(** ** Activation, again *)

Lemma filter_absent (name : string) (s : list (string * gmap string ResponseData)) :
  ~ In name (map fst s) ->
  List.filter (fun nc => String.eqb (fst nc) name) s = [].
Proof.
  induction s as [|[n c] s IH]; simpl; intros H; [reflexivity|].
  destruct (String.eqb n name) eqn:N; [apply String.eqb_eq in N; tauto|]. apply IH. tauto.
Qed.

Lemma find_cache_filter_other (name n : string) (s : list (string * gmap string ResponseData)) :
  n <> name ->
  find_cache n (List.filter (fun nc => String.eqb (fst nc) name) s) = None.
Proof.
  intros Hn. induction s as [|[m c] s IH]; simpl; [reflexivity|].
  destruct (String.eqb m name) eqn:N; simpl; [|exact IH].
  apply String.eqb_eq in N. subst m.
  destruct (String.eqb name n) eqn:E; [apply String.eqb_eq in E; congruence | exact IH].
Qed.

Lemma match_all_filter_current (name key : string) (s : list (string * gmap string ResponseData)) :
  List.NoDup (map fst s) ->
  match_all key (List.filter (fun nc => String.eqb (fst nc) name) s) =
  match find_cache name s with
  | Some c => c !! key
  | None => None
  end.
Proof.
  induction s as [|[m c] s IH]; simpl; intros H; [reflexivity|].
  inversion H as [|? ? Hm Hs]; subst.
  destruct (String.eqb m name) eqn:N; simpl; [|apply IH, Hs].
  apply String.eqb_eq in N. subst m. rewrite (filter_absent _ _ Hm). simpl.
  destruct (c !! key); reflexivity.
Qed.

(** X8. After activation [caches.match] answers from the current store
    only: for every key it finds what the current store held before
    activation and nothing else, and no store of another name holds
    anything. *)
Theorem after_activation_only_the_current_store_answers (v : Worker) (e : Env) (w : World) :
  List.NoDup (store_names w) ->
  let w' := snd (activate_of v e w) in
  forall key,
    match_all key (storage w') = lookup_store (cache_name_of v) key w /\
    forall n, n <> cache_name_of v -> lookup_store n key w' = None.
Proof.
  intros H. cbv zeta. intros key. destruct (activate_storage v e w) as [E _].
  unfold lookup_store. rewrite E. split.
  - apply match_all_filter_current, H.
  - intros n Hn. rewrite find_cache_filter_other by exact Hn. reflexivity.
Qed.

Lemma after_activation_only_the_current_store_answers_witness :
  List.NoDup (store_names two_generations) /\
  match_all "https://drono-coder.github.io/raj-app/" (storage two_generations)
  = Some (page "old") /\
  match_all "https://drono-coder.github.io/raj-app/"
    (storage (snd (activate_of Enhanced online two_generations)))
  = lookup_store (cache_name_of Enhanced) "https://drono-coder.github.io/raj-app/"
      two_generations.
Proof.
  assert (H : List.NoDup (store_names two_generations)).
  { unfold store_names. simpl. repeat constructor; simpl; intuition discriminate. }
  split; [exact H|]. split; [reflexivity|].
  exact (proj1 (after_activation_only_the_current_store_answers Enhanced online
                  two_generations H "https://drono-coder.github.io/raj-app/")).
Defined.

(** X9. The second activate listener of the v2 worker, run alone, deletes
    the stores whose name starts with raj-app- and is not the current one,
    and keeps every other store, those of a foreign name too; run after
    the first listener it finds nothing to delete: both listeners together
    leave the storage the first one leaves. *)
Theorem second_activate_listener_is_subsumed (e : Env) (w : World) :
  (forall n c,
     In (n, c) (storage (snd (V2.cleanup_listener e w))) <->
     In (n, c) (storage w) /\
     (startsWith n "raj-app-" = false \/ n = V2.CACHE_NAME)) /\
  storage (snd (V2.activate_event e w)) = storage (snd (V2.activate_listener e w)).
Proof.
  split.
  - intros n c. destruct (V2_cleanup_listener_storage e w) as [E _]. rewrite E.
    rewrite filter_In. simpl.
    destruct (startsWith n "raj-app-"); simpl.
    + rewrite negb_involutive, String.eqb_eq. intuition congruence.
    + intuition.
  - pose proof (activate_storage Enhanced e w) as [A _].
    destruct (V2_activate_listener_storage e w) as [B _]. rewrite B.
    unfold activate_of, bind, ret in A.
    destruct (V2.activate_event e w) as [r w1]. exact A.
Qed.

(** ** The Firebase SDK files *)

(** X10. The fetch listener of the v2 worker does not store a Firebase SDK
    file it fetched: when the same request comes again and the network
    fails, the answer is the rejection of the fetch. *)
Theorem sdk_file_is_not_stored_by_fetch (e e2 : Env) (w : World) (request : Request)
    (d : ResponseData) :
  V2.excluded_host (url request) = true ->
  V2.sdk_asset (url request) = true ->
  match_all (href (url request)) (storage w) = None ->
  net e (href (url request)) = Some d ->
  net e2 (href (url request)) = None ->
  let w1 := snd (V2.fetch_listener request e w) in
  (exists r, fst (V2.fetch_listener request e w) = RespondWith (Fulfilled (Some r)) /\
             data r = d) /\
  storage w1 = storage w /\
  fst (V2.fetch_listener request e2 w1) = RespondWith (Rejected FetchFailed).
Proof.
  intros Hx Hs Hm Hn Hn2. cbv zeta.
  rewrite (V2_fetch_sdk _ _ _ Hx Hs), (V2_sdk_miss_online _ _ _ _ Hm Hn). simpl fst; simpl snd.
  split; [eauto|]. split; [reflexivity|].
  rewrite (V2_fetch_sdk _ _ _ Hx Hs).
  erewrite V2_sdk_miss_offline; [reflexivity | exact Hm | exact Hn2].
Qed.

Lemma sdk_file_is_not_stored_by_fetch_witness :
  V2.excluded_host (url sdk_request) = true /\
  V2.sdk_asset (url sdk_request) = true /\
  match_all (href (url sdk_request)) (storage empty_world) = None /\
  net offline (href (url sdk_request)) = None /\
  fst (V2.fetch_listener sdk_request offline
         (snd (V2.fetch_listener sdk_request online empty_world)))
  = RespondWith (Rejected FetchFailed).
Proof.
  repeat (split; [reflexivity|]).
  exact (proj2 (proj2 (sdk_file_is_not_stored_by_fetch online offline empty_world sdk_request
                         (page "content of https://www.gstatic.com/firebasejs/9.23.0/firebase-app-compat.js")
                         eq_refl eq_refl eq_refl eq_refl eq_refl))).
Defined.

(** ** The sync, push, notification click and message listeners *)

Lemma signals_since_app (h h' : Events.Host) (t : list Events.Signal) :
  Events.signals h' = Events.signals h ++ t -> Events.signals_since h h' = t.
Proof. intros H. unfold Events.signals_since. rewrite H. apply drop_app_length. Qed.

Lemma posted_app (l l' : list Events.Signal) :
  Events.posted (l ++ l') = Events.posted l ++ Events.posted l'.
Proof.
  induction l as [|x l IH]; [reflexivity|].
  destruct x; simpl; rewrite ?IH; reflexivity.
Qed.

Lemma stamped_recipients (p : Events.Page) (k : nat) (cs : list nat) :
  map fst (stamped p k cs) = cs.
Proof. revert k; induction cs as [|c cs IH]; intros k; simpl; [|rewrite IH]; reflexivity. Qed.

(** The loop of the sync listener. *)
Lemma sync_loop (f : nat -> Events.H unit) (cs : list nat) (p : Events.Page)
      (h : Events.Host) :
  (forall c h0,
     f c p h0 =
     (tt, Events.mkHost (S (Events.ticks h0))
            (Events.signals h0 ++
             [Events.PostMessage c (Events.SyncAvailable (Events.time p (Events.ticks h0)))]))) ->
  exists t,
    Events.forEach cs f p h
    = (tt, Events.mkHost (Events.ticks h + length cs) (Events.signals h ++ t)) /\
    Events.posted t = stamped p (Events.ticks h) cs.
Proof.
  intros Hf. revert h; induction cs as [|c cs IH]; intros h.
  - exists []. simpl. unfold Events.hret. rewrite Nat.add_0_r, app_nil_r.
    destruct h; auto.
  - simpl. unfold Events.hbind. rewrite Hf.
    destruct (IH (Events.mkHost (S (Events.ticks h))
                    (Events.signals h ++
                     [Events.PostMessage c (Events.SyncAvailable
                                              (Events.time p (Events.ticks h)))])))
      as [t [Hrun Hp]].
    cbn [Events.ticks Events.signals] in Hrun, Hp.
    exists (Events.PostMessage c (Events.SyncAvailable (Events.time p (Events.ticks h))) :: t).
    rewrite Hrun. split.
    + f_equal. f_equal; [lia|]. rewrite <- app_assoc. reflexivity.
    + simpl. rewrite Hp. reflexivity.
Qed.

Lemma sync_run (tag : string) (p : Events.Page) (h : Events.Host) :
  exists t,
    Events.sync_listener tag p h =
    (tt, Events.mkHost
           (if String.eqb tag "firebase-sync"
            then Events.ticks h + length (Events.clients p) else Events.ticks h)
           (Events.signals h ++ t)) /\
    Events.posted t =
    if String.eqb tag "firebase-sync"
    then stamped p (Events.ticks h) (Events.clients p) else [].
Proof.
  unfold Events.sync_listener. destruct (String.eqb tag "firebase-sync").
  - unfold Events.hbind at 1. unfold Events.hbind at 1. unfold Events.hbind at 1.
    unfold Events.signal at 1. unfold Events.signal at 1. unfold Events.ask_page.
    cbn [Events.ticks Events.signals].
    match goal with |- context [Events.forEach ?cs ?f p ?h0] =>
      destruct (sync_loop f cs p h0 (fun c h1 => eq_refl)) as [t [Hrun Hp]] end.
    cbn [Events.ticks Events.signals] in Hrun, Hp. rewrite Hrun.
    exists (Events.Log "Service Worker: Background sync triggered:" (Some tag)
            :: Events.MatchAll :: t).
    split; [rewrite <- !app_assoc; reflexivity | exact Hp].
  - exists [Events.Log "Service Worker: Background sync triggered:" (Some tag)].
    split; reflexivity.
Qed.

(** X11. On a sync event tagged firebase-sync every client [matchAll]
    answers with is sent exactly one SYNC_AVAILABLE message, in the order
    of the clients, each stamped with its own reading of the clock; with
    no client nothing is sent. On a sync event of any other tag nothing is
    sent and the clock is not read. *)
Theorem sync_posts_once_per_client (tag : string) (p : Events.Page) (h : Events.Host) :
  let h' := snd (Events.sync_listener tag p h) in
  let sent := Events.posted (Events.signals_since h h') in
  if String.eqb tag "firebase-sync" then
    sent = stamped p (Events.ticks h) (Events.clients p) /\
    map fst sent = Events.clients p /\
    Events.ticks h' = (Events.ticks h + length (Events.clients p))%nat
  else sent = [] /\ Events.ticks h' = Events.ticks h.
Proof.
  cbv zeta. destruct (sync_run tag p h) as [t [Hrun Hp]]. rewrite Hrun. cbn [snd].
  erewrite signals_since_app by reflexivity. rewrite Hp.
  destruct (String.eqb tag "firebase-sync").
  - rewrite stamped_recipients. auto.
  - auto.
Qed.

Lemma sync_posts_once_per_client_witness :
  Events.posted
    (Events.signals_since Events.idle
       (snd (Events.sync_listener "firebase-sync" two_clients Events.idle)))
  = [(7%nat, Events.SyncAvailable 1000); (9%nat, Events.SyncAvailable 1001)] /\
  Events.posted
    (Events.signals_since Events.idle
       (snd (Events.sync_listener "periodic" two_clients Events.idle))) = [].
Proof.
  split.
  - exact (proj1 (sync_posts_once_per_client "firebase-sync" two_clients Events.idle)).
  - exact (proj1 (sync_posts_once_per_client "periodic" two_clients Events.idle)).
Defined.



Lemma json_or_truthy (a : Events.Json) (s : string) :
  s <> "" -> Events.json_truthy (Events.json_or a (Events.JStr s)) = true.
Proof.
  intros Hs. unfold Events.json_or. destruct (Events.json_truthy a) eqn:A; [exact A|].
  simpl. destruct (String.eqb_spec s ""); [contradiction | reflexivity].
Qed.

(** X13. The push listener shows a notification exactly for a payload that
    parses to a value other than null, and then exactly one, whose title,
    body and primary key are never blank: a property of the payload that is
    missing, empty, zero, false or null is replaced by the default text, a
    truthy one is passed on as it is. The notification offers the actions
    explore and close and carries the time of arrival. Without a payload
    nothing is shown; a payload that is not JSON, or that is null, ends the
    listener in an exception before anything is shown. *)
Theorem push_notification_is_never_blank (data : Events.PushData) (p : Events.Page)
    (h : Events.Host) :
  let out := fst (Events.push_listener data p h) in
  let h' := snd (Events.push_listener data p h) in
  let notes := Events.shown (Events.signals_since h h') in
  match data with
  | Events.Parsed (Events.PValue t b k) =>
      out = Events.Returned /\
      exists title options,
        notes = [(title, options)] /\
        Events.json_truthy title = true /\
        Events.json_truthy (Events.body options) = true /\
        Events.json_truthy (Events.primaryKey options) = true /\
        (Events.json_truthy t = true -> title = t) /\
        (Events.json_truthy b = true -> Events.body options = b) /\
        (Events.json_truthy k = true -> Events.primaryKey options = k) /\
        map Events.action (Events.actions options) = ["explore"; "close"] /\
        Events.dateOfArrival options = Events.time p (Events.ticks h)
  | Events.NoData => out = Events.Returned /\ notes = []
  | Events.Unparsable => out = Events.Threw Events.NotJson /\ notes = []
  | Events.Parsed Events.PNull => out = Events.Threw Events.NullPayload /\ notes = []
  end.
Proof.
  cbv zeta. destruct data as [| |[|t b k]]; unfold Events.push_listener;
    unfold Events.hbind, Events.signal, Events.hret, Events.Date_now;
    cbn [fst snd Events.ticks Events.signals];
    (erewrite signals_since_app by (rewrite <- ?app_assoc; reflexivity));
    try (split; reflexivity).
  split; [reflexivity|]. do 2 eexists. split; [reflexivity|].
  cbn [Events.body Events.primaryKey Events.actions Events.dateOfArrival].
  split; [apply json_or_truthy; discriminate|].
  split; [apply json_or_truthy; discriminate|].
  split; [apply json_or_truthy; discriminate|].
  unfold Events.json_or.
  split; [intros ->; reflexivity|]. split; [intros ->; reflexivity|].
  split; [intros ->; reflexivity|]. split; reflexivity.
Qed.

Lemma push_notification_is_never_blank_witness :
  exists title options,
    Events.shown
      (Events.signals_since Events.idle
         (snd (Events.push_listener
                 (Events.Parsed (Events.PValue (Events.JStr "") Events.JUndefined (Events.JNum 0)))
                 two_clients Events.idle)))
    = [(title, options)] /\
    Events.json_truthy title = true /\
    Events.json_truthy (Events.body options) = true /\
    Events.json_truthy (Events.primaryKey options) = true.
Proof.
  destruct (push_notification_is_never_blank
              (Events.Parsed (Events.PValue (Events.JStr "") Events.JUndefined (Events.JNum 0)))
              two_clients Events.idle) as [_ [title [options [H [Ht [Hb [Hk _]]]]]]].
  exists title, options. auto.
Defined.

(** X14. A click on a notification always closes it. It opens a window
    exactly for the action explore, one window, at the root of the app on
    the worker's origin; the actions the push listener offers are explore
    and close, so close opens nothing. The page opened is the first URL of
    the manifest: once the install listener has seeded the manifest on
    that origin, the current store holds the network's answer for it. *)
Theorem explore_opens_the_seeded_root (event_action : string) (p : Events.Page)
    (h : Events.Host) (e : Env) (w : World) :
  origin e = Events.location_origin p ->
  (forall u, In u V2.urlsToCache ->
             exists d, net e (resolve_url e u) = Some d /\ addable d = true) ->
  let done := Events.signals_since h (snd (Events.notificationclick_listener event_action p h)) in
  let root := resolve_url e (String.append V2.BASE_PATH "/") in
  In Events.CloseNotification done /\
  Events.opened_windows done = (if String.eqb event_action "explore" then [root] else []) /\
  In (String.append V2.BASE_PATH "/") V2.urlsToCache /\
  lookup_store V2.CACHE_NAME root (snd (V2.install_listener e w)) = net e root /\
  is_Some (net e root).
Proof.
  intros Ho All. cbv zeta.
  assert (Hu : In (String.append V2.BASE_PATH "/") V2.urlsToCache) by (simpl; tauto).
  split; [|split; [|split; [exact Hu|split]]].
  - unfold Events.notificationclick_listener.
    destruct (String.eqb event_action "explore");
      unfold Events.hbind, Events.signal, Events.hret, Events.ask_page;
      cbn [snd Events.ticks Events.signals];
      (erewrite signals_since_app by (rewrite <- ?app_assoc; reflexivity));
      simpl; tauto.
  - unfold Events.notificationclick_listener.
    destruct (String.eqb event_action "explore");
      unfold Events.hbind, Events.signal, Events.hret, Events.ask_page;
      cbn [snd Events.ticks Events.signals];
      (erewrite signals_since_app by (rewrite <- ?app_assoc; reflexivity));
      [|reflexivity].
    simpl. unfold resolve_url. rewrite Ho. reflexivity.
  - pose proof (answers_ok_all e _ All) as Hok.
    destruct (V2_install_succeeds e w Hok) as [l [Hl Hrun]]. rewrite Hrun. simpl snd.
    apply (seeded_store _ _ _ _ _ _ _ _ Hl Hu).
  - destruct (All _ Hu) as [d [Hd _]]. rewrite Hd. eauto.
Qed.

Lemma explore_opens_the_seeded_root_witness :
  origin online = Events.location_origin two_clients /\
  (forall u, In u V2.urlsToCache ->
             exists d, net online (resolve_url online u) = Some d /\ addable d = true) /\
  Events.opened_windows
    (Events.signals_since Events.idle
       (snd (Events.notificationclick_listener "explore" two_clients Events.idle)))
  = ["https://drono-coder.github.io/raj-app/"] /\
  lookup_store V2.CACHE_NAME "https://drono-coder.github.io/raj-app/"
    (snd (V2.install_listener online empty_world))
  = net online "https://drono-coder.github.io/raj-app/".
Proof.
  assert (H : forall u, In u V2.urlsToCache ->
                exists d, net online (resolve_url online u) = Some d /\ addable d = true)
    by (intros u _; eexists; split; reflexivity).
  split; [reflexivity|]. split; [exact H|].
  destruct (explore_opens_the_seeded_root "explore" two_clients Events.idle online empty_world
              eq_refl H) as [_ [Hw [_ [Hl _]]]].
  split; [exact Hw | exact Hl].
Defined.

(** X15. The version a GET_VERSION message is answered with is the name of
    the store the worker lives on: the install listener leaves a store of
    that name, and after the activate listeners no store has another
    name. *)
Theorem reported_version_names_the_live_store (event : Events.MessageEvent)
    (p : Events.Page) (h : Events.Host) (port : nat) :
  Events.has_type event "GET_VERSION" = true ->
  head (Events.ports event) = Some port ->
  let done := Events.signals_since h (snd (Events.message_listener event p h)) in
  exists version timestamp,
    In (Events.PortMessage port (Events.VersionReply version timestamp)) done /\
    (forall e w, is_Some (find_cache version (storage (snd (V2.install_listener e w))))) /\
    (forall e w n, In n (store_names (snd (V2.activate_event e w))) -> n = version).
Proof.
  intros G P. cbv zeta. exists V2.CACHE_NAME, (Events.time p (Events.ticks h)).
  split; [|split].
  - unfold Events.message_listener. rewrite G.
    destruct (Events.ports event) as [|port0 rest]; [discriminate|].
    injection P as ->.
    destruct (Events.has_type event "SKIP_WAITING");
      unfold Events.hbind, Events.signal, Events.hret, Events.Date_now;
      cbn [snd Events.ticks Events.signals];
      (erewrite signals_since_app by (rewrite <- ?app_assoc; reflexivity));
      simpl; tauto.
  - intros e w. destruct (install_storage_cases Enhanced e w) as [_ [_ C]].
    cbv zeta in C. simpl install_listener_of in C. simpl cache_name_of in C.
    destruct (answers_ok e (keys_of e (manifest_of Enhanced))).
    + destruct C as [l [_ [E _]]]. rewrite E, find_cache_put. eauto.
    + destruct C as [E _]. rewrite E.
      pose proof (find_cache_put V2.CACHE_NAME (fun c => c) (storage w)) as F.
      assert (U : forall s, update_cache V2.CACHE_NAME (fun c => c) s = s).
      { induction s as [|[n c] s IH]; simpl; [reflexivity|].
        destruct (String.eqb n V2.CACHE_NAME); [reflexivity | rewrite IH; reflexivity]. }
      rewrite U in F. rewrite F. eauto.
  - intros e w n Hn. pose proof (activate_storage Enhanced e w) as [A _].
    unfold activate_of, bind, ret in A.
    destruct (V2.activate_event e w) as [r w1]. simpl in A. simpl in Hn.
    unfold store_names in Hn. rewrite A in Hn. apply filter_names in Hn. tauto.
Qed.

Lemma reported_version_names_the_live_store_witness :
  Events.has_type (Events.mkMessage (Some (Events.JStr "GET_VERSION")) [3%nat]) "GET_VERSION"
  = true /\
  head (Events.ports (Events.mkMessage (Some (Events.JStr "GET_VERSION")) [3%nat]))
  = Some 3%nat /\
  exists version timestamp,
    In (Events.PortMessage 3 (Events.VersionReply version timestamp))
      (Events.signals_since Events.idle
         (snd (Events.message_listener
                 (Events.mkMessage (Some (Events.JStr "GET_VERSION")) [3%nat])
                 two_clients Events.idle))) /\
    (forall e w, is_Some (find_cache version (storage (snd (V2.install_listener e w))))) /\
    (forall e w n, In n (store_names (snd (V2.activate_event e w))) -> n = version).
Proof.
  split; [reflexivity|]. split; [reflexivity|].
  exact (reported_version_names_the_live_store
           (Events.mkMessage (Some (Events.JStr "GET_VERSION")) [3%nat])
           two_clients Events.idle 3%nat eq_refl eq_refl).
Defined.
